(** * kinobot.palette: colour extraction, cleaning and palette layout

    A shallow embedding of [src/kinobot/palette.py].

    - Python integers are [Z]; list lengths and loop indices are [nat].
    - A colour is the (R, G, B) tuple that PIL and ColorThief hand out.
    - A Python call that may raise is a computation in the [result] monad;
      [try ... except TypeError] is the handler [except_TypeError], and
      [try ... except Exception] a match that catches every [Raise].
    - Pillow, Wand and ColorThief are external: every function of the module
      is written over a record [Backend] of the library calls it makes.
      [Raster] is a concrete backend (pixel grids, Pillow's documented size
      checks and clipping) on which the functions can be run.
    - Float expressions such as [int(w * 0.015)] are computed over exact
      rationals and then truncated toward zero, as [int] does.  For
      [int(width / 10)], [int(new_w / len(palette))], [w / h > 2.1],
      [int((w / h) * 4)] and, with the default border fraction,
      [int(w * 0.015)], the doubles give the same integers at every image
      size far below 2^40: an exact value that is not an integer is further
      from the next integer than the rounding error, and an integer value is
      hit exactly.  This fails for other border fractions, where the double
      product can truncate to one less than the exact one ([1500 * 0.018] is
      26.999999999999996), so the sizes of the modern layout are stated for
      the default fraction.  In [get_palette_legacy] the chained products and
      quotients behind the strip height can likewise come out one less in
      doubles where the exact value is an integer; the properties below of
      the legacy layout concern its guard, its exceptions and the widths of
      its rectangles, and do not depend on that height. *)

From Stdlib Require Import ZArith List Lia Bool QArith Qround Permutation.
Import ListNotations.
Open Scope Z_scope.

(** ** Colours *)

Definition Color : Type := (Z * Z * Z)%type.

(** [c[0]] *)
Definition red (c : Color) : Z := fst (fst c).

(** Iterating over the tuple: [for tup in c]. *)
Definition channels (c : Color) : list Z :=
  let '(r, g, b) := c in [r; g; b].

Definition white : Color := (255, 255, 255).

(** ** Exceptions *)

Inductive exn : Type :=
| TypeError
| ValueError
| ZeroDivisionError
| IndexError
| NotEnoughColors (found : nat)
| OtherError.

Inductive result (A : Type) : Type :=
| Ok (a : A)
| Raise (e : exn).
Arguments Ok {A} a.
Arguments Raise {A} e.

Definition bind {A B : Type} (m : result A) (k : A -> result B) : result B :=
  match m with
  | Ok a => k a
  | Raise e => Raise e
  end.

Declare Scope py_scope.
Delimit Scope py_scope with py.
Notation "x <- m ;; k" := (bind m (fun x => k))
  (at level 61, m at next level, right associativity) : py_scope.
Notation "' p <- m ;; k" := (bind m (fun x => let p := x in k))
  (at level 61, p pattern, m at next level, right associativity) : py_scope.
Open Scope py_scope.

(** [try: body  except TypeError: handler] *)
Definition except_TypeError {A : Type} (body : result A) (handler : result A)
  : result A :=
  match body with
  | Raise TypeError => handler
  | r => r
  end.

(** A [for] loop whose body may raise: the state is threaded through the
    iterations and the first exception ends the loop. *)
Fixpoint for_each {St Ix : Type} (body : St -> Ix -> result St)
  (rng : list Ix) (s : St) : result St :=
  match rng with
  | [] => Ok s
  | i :: rest => s' <- body s i ;; for_each body rest s'
  end.

(** [range(a, a + n)] *)
Definition range (a n : nat) : list nat := seq a n.

(** ** get_most_diff *)

(** The dict [{"color": new, "hits": hits}]. *)
Record Scored : Type := { color : Color; hits : Z }.

(** The inner loop: [hits] counts the saved colours whose red channel is more
    than 10 away from that of [new]. *)
Definition count_hits (saved_colors : list Color) (new : Color) : Z :=
  fold_left
    (fun hits saved =>
       if Z.abs (red new - red saved) >? 10 then hits + 1 else hits)
    saved_colors 0.

(** The outer loop: one dict per candidate, in candidate order. *)
Definition score_all (saved_colors new_colors : list Color) : list Scored :=
  map (fun new => {| color := new; hits := count_hits saved_colors new |})
      new_colors.

(** [sorted(colors, key=itemgetter("hits"), reverse=True)]: Python's sort is
    stable, and [reverse=True] keeps elements with equal keys in their
    original order.  A stable insertion sort into descending order. *)
Fixpoint insert_desc (x : Scored) (l : list Scored) : list Scored :=
  match l with
  | [] => [x]
  | y :: l' => if hits y <=? hits x then x :: l else y :: insert_desc x l'
  end.

Definition sorted_hits_desc (l : list Scored) : list Scored :=
  fold_right insert_desc [] l.

(** [sorted(...)[0]] raises [IndexError] on an empty list. *)
Definition get_most_diff (saved_colors new_colors : list Color)
  : result Scored :=
  match sorted_hits_desc (score_all saved_colors new_colors) with
  | [] => Raise IndexError
  | best :: _ => Ok best
  end.

(** ** clean_colors *)

(** [hits] of one colour: how many of its channels exceed 160. *)
Definition white_hits (c : Color) : Z :=
  fold_left (fun hits tup => if tup >? 160 then hits + 1 else hits)
            (channels c) 0.

(** The [for color in range(5, len(colors))] loop, with its early return
    [colors[:color]] and the final [return colors]. *)
Fixpoint clean_loop (colors : list Color) (tolerancy : Z) (rng : list nat)
  : list Color :=
  match rng with
  | [] => colors
  | color :: rest =>
      if white_hits (nth color colors white) >? tolerancy
      then firstn color colors
      else clean_loop colors tolerancy rest
  end.

(** The bare [return] of the short-list guard yields [None]. *)
Definition clean_colors (colors : list Color) (tolerancy : Z)
  : option (list Color) :=
  if (length colors <? 6)%nat then None
  else Some (clean_loop colors tolerancy (range 5 (length colors - 5))).

Definition default_tolerancy : Z := 2.

(** ** Numbers *)

(** [int(x)] on a float: truncation toward zero. *)
Definition py_int (x : Q) : Z := Z.quot (Qnum x) (Zpos (Qden x)).

(** [a / b]: true division raises on a zero divisor. *)
Definition truediv (a b : Q) : result Q :=
  if Qeq_bool b 0 then Raise ZeroDivisionError else Ok (a / b)%Q.

Definition default_border : Q := 0.015.

(** ** The imaging libraries *)

Record Backend : Type := {
  Image : Type;
  (** [image.size] *)
  size : Image -> Z * Z;
  (** [Image.new("RGB", size, color)] *)
  Image_new : Z * Z -> Color -> result Image;
  (** [bg.paste(im, box)]: the pasted-onto image after the call *)
  Image_paste : Image -> Image -> Z * Z -> result Image;
  (** [im.resize(size)] *)
  Image_resize : Image -> Z * Z -> result Image;
  (** [im.crop(box)], [box = (left, upper, right, lower)] *)
  Image_crop : Image -> Z * Z * Z * Z -> result Image;
  (** [ImageOps.expand(im, border=(left, top, right, bottom), fill=color)] *)
  ImageOps_expand : Image -> Z * Z * Z * Z -> Color -> result Image;
  (** [pil_to_wand], [quantize(10, dither)], [unique_colors], [wand_to_pil],
      [list(getdata())] *)
  wand_unique_colors : Image -> result (list Color);
  (** [ColorThief(im).get_color()] *)
  thief_get_color : Image -> result Color;
  (** [ColorThief(im).get_palette(color_count=n)] *)
  thief_get_palette : Image -> nat -> result (list Color)
}.

Section Palette.

Variable B : Backend.
Local Abbreviation image := (Image B).

(** ** get_colors *)

Definition get_colors (im : image) : result (list Color) :=
  wand_unique_colors B im.

(** ** get_colors_alt *)

(** [box] of slice [i]. *)
Definition slice_box (width height : Z) (i : nat) : Z * Z * Z * Z :=
  let slices := py_int (inject_Z width / 10) in
  (Z.of_nat i * slices, 0, slices + Z.of_nat i * slices, height).

(** One iteration of [for i in range(10)].  [get_most_diff] returns a dict, so
    the [is not None] test always passes. *)
Definition slice_step (im : image) (saved_colors : list Color) (i : nat)
  : result (list Color) :=
  let '(width, height) := size B im in
  cropped <- Image_crop B im (slice_box width height i) ;;
  if (i =? 0)%nat then
    principal <- thief_get_color B cropped ;;
    Ok (saved_colors ++ [principal])
  else
    new_colors <- thief_get_palette B cropped 100 ;;
    new_color <- get_most_diff saved_colors new_colors ;;
    Ok (saved_colors ++ [color new_color]).

Definition get_colors_alt (im : image) : result (list Color) :=
  for_each (slice_step im) (range 0 10) [].

(** [color_func = get_colors if wand else get_colors_alt] *)
Definition color_func (wand : bool) : image -> result (list Color) :=
  if wand then get_colors else get_colors_alt.

(** ** get_palette_legacy *)

Definition legacy_step (palette : list Color)
  (div_palette off_palette height_palette : Z)
  (st : image * Z) (color : nat) : result (image * Z) :=
  let '(bg, next_) := st in
  if (color =? 0)%nat then
    img_color <- Image_new B (py_int (inject_Z div_palette * 0.95),
                              height_palette) (nth color palette white) ;;
    bg <- Image_paste B bg img_color (0, 0) ;;
    Ok (bg, next_ + div_palette)
  else
    img_color <- Image_new B (off_palette, height_palette)
                           (nth color palette white) ;;
    bg <- Image_paste B bg img_color (next_, 0) ;;
    Ok (bg, next_ + div_palette).

Definition get_palette_legacy (im : image) (wand : bool) : result image :=
  let '(width, height) := size B im in
  palette <- color_func wand im ;;
  if (length palette <? 10)%nat then Raise (NotEnoughColors (length palette))
  else
    ratio <- truediv (inject_Z height) (inject_Z width) ;;
    let divisor := (ratio * 5.5)%Q in
    scaled <- truediv (inject_Z height) divisor ;;
    let height_palette := py_int scaled in
    let div_palette :=
      py_int (inject_Z width / inject_Z (Z.of_nat (length palette)) * 0.99) in
    let off_palette := py_int (inject_Z div_palette * 0.95) in
    bg <- Image_new B (width - py_int (inject_Z off_palette * 0.2),
                       height_palette) white ;;
    except_TypeError
      ('(bg, _) <- for_each
                     (legacy_step palette div_palette off_palette
                                  height_palette)
                     (range 0 (length palette)) (bg, 0) ;;
       palette_img <- Image_resize B bg (width, height_palette) ;;
       let borders := py_int (inject_Z width * 0.0065) in
       let borders_total :=
         (borders, borders, borders, height_palette + borders) in
       bordered_original <- ImageOps_expand B im borders_total white ;;
       bordered_palette <-
         ImageOps_expand B palette_img (0, borders, 0, borders) white ;;
       bordered_original <-
         Image_paste B bordered_original bordered_palette (borders, height) ;;
       Ok bordered_original)
      (Ok im).

(** ** get_palette *)

(** [border] after the wide-image adjustment.  The product [w * border] is
    taken exactly; the source takes it in doubles, which truncates to the
    same integer for the default fraction and not for every other one. *)
Definition layout_border (w h : Z) (border : Q) : result Z :=
  let border := py_int (inject_Z w * border) in
  ratio <- truediv (inject_Z w) (inject_Z h) ;;
  if negb (Qle_bool ratio 2.1) then Ok (border - py_int (ratio * 4))
  else Ok border.

(** [leftover] of the last segment. *)
Definition last_leftover (w div_palette : Z) (len : nat) : Z :=
  py_int (inject_Z (w - div_palette * (Z.of_nat len - 1)) / 2).

(** One iteration of [for color in range(len(palette))].  The [leftover]
    assigned in the final [else] branch of the source is never read and is
    left out. *)
Definition strip_step (palette : list Color) (w div_palette border : Z)
  (st : image * Z) (color : nat) : result (image * Z) :=
  let '(bg, next_) := st in
  if (color =? 0)%nat then
    img_color <- Image_new B (div_palette, border)
                           (nth color palette white) ;;
    bg <- Image_paste B bg img_color (0, 0) ;;
    Ok (bg, next_ + div_palette)
  else if (color =? length palette - 1)%nat then
    let leftover := last_leftover w div_palette (length palette) in
    img_color <- Image_new B (div_palette + leftover, border)
                           (nth color palette white) ;;
    bg <- Image_paste B bg img_color (next_, 0) ;;
    Ok (bg, next_ + div_palette)
  else
    img_color <- Image_new B (div_palette, border)
                           (nth color palette white) ;;
    bg <- Image_paste B bg img_color (next_, 0) ;;
    Ok (bg, next_ + div_palette).

(** [not palette]: [None] and the empty list are falsy. *)
Definition falsy (palette : option (list Color)) : bool :=
  match palette with
  | None | Some [] => true
  | Some (_ :: _) => false
  end.

(** Everything from [w, h = image.size] on. *)
Definition compose_layout (im : image) (palette : list Color) (border : Q)
  : result image :=
  let '(w, h) := size B im in
  border <- layout_border w h border ;;
  let new_w := w + border * 2 in
  let div_palette :=
    py_int (inject_Z new_w / inject_Z (Z.of_nat (length palette))) in
  bg <- Image_new B (new_w, border) white ;;
  except_TypeError
    ('(bg, _) <- for_each (strip_step palette w div_palette border)
                          (range 0 (length palette)) (bg, 0) ;;
     bordered <- ImageOps_expand B im (border, border, border, 0)
                                 (nth 0 palette white) ;;
     bordered <- Image_paste B bordered bg (0, h) ;;
     Ok bordered)
    (Ok im).

(** The first [try] catches [Exception], that is every exception of [exn];
    [clean_colors] and the layout run after it. *)
Definition get_palette (im : image) (border : Q) (wand : bool)
  : result image :=
  match color_func wand im with
  | Raise _ => Ok im
  | Ok colors =>
      let palette := clean_colors colors default_tolerancy in
      if falsy palette then Ok im
      else
        match palette with
        | Some palette => compose_layout im palette border
        | None => Ok im
        end
  end.

End Palette.

Arguments get_colors B im : assert.
Arguments get_colors_alt B im : assert.
Arguments color_func B wand im : assert.
Arguments get_palette_legacy B im wand : assert.
Arguments get_palette B im border wand : assert.

(** ** A raster backend

    Images are grids of pixels, stored row by row.  The size checks,
    the clipping of [paste] and the way [ImageOps.expand] is built from
    [Image.new] and [paste] follow Pillow.  The colour extractors of Wand and
    ColorThief are arguments of the backend. *)

Module Raster.

Record image : Type := {
  width : Z;
  height : Z;
  pixels : list (list Color)
}.

Definition black : Color := (0, 0, 0).

(** The pixel at column [x] of row [y]; black outside the grid. *)
Definition getpixel (im : image) (x y : Z) : Color :=
  if (x <? 0) || (y <? 0) then black
  else nth (Z.to_nat x) (nth (Z.to_nat y) (pixels im) []) black.

(** A [w] by [h] grid computed from the coordinates. *)
Definition grid (w h : Z) (f : Z -> Z -> Color) : list (list Color) :=
  map (fun y => map (fun x => f (Z.of_nat x) (Z.of_nat y))
                    (seq 0 (Z.to_nat w)))
      (seq 0 (Z.to_nat h)).

Definition size (im : image) : Z * Z := (width im, height im).

(** Pillow checks the size: "Width and height must be >= 0". *)
Definition new (sz : Z * Z) (fill : Color) : result image :=
  let '(w, h) := sz in
  if (w <? 0) || (h <? 0) then Raise ValueError
  else Ok {| width := w; height := h; pixels := grid w h (fun _ _ => fill) |}.

(** [bg.paste(im, (x0, y0))]: the region is clipped to [bg]. *)
Definition paste (bg im : image) (box : Z * Z) : result image :=
  let '(x0, y0) := box in
  Ok {| width := width bg; height := height bg;
        pixels := grid (width bg) (height bg)
          (fun x y =>
             if (x0 <=? x) && (x <? x0 + width im) &&
                (y0 <=? y) && (y <? y0 + height im)
             then getpixel im (x - x0) (y - y0)
             else getpixel bg x y) |}.

(** [im.resize((w, h))]: an unchanged size gives a copy, a side below 1 is
    refused ("height and width must be > 0").  Pillow's resampling filter is
    not modelled: the pixels of the result are sampled nearest-neighbour,
    and nothing below depends on them. *)
Definition resize (im : image) (sz : Z * Z) : result image :=
  let '(w, h) := sz in
  if (w =? width im) && (h =? height im) then Ok im
  else if (w <? 1) || (h <? 1) then Raise ValueError
  else Ok {| width := w; height := h;
             pixels := grid w h
               (fun x y => getpixel im (x * width im / w)
                                       (y * height im / h)) |}.

Definition crop (im : image) (box : Z * Z * Z * Z) : result image :=
  let '(x0, y0, x1, y1) := box in
  if (x1 <? x0) || (y1 <? y0) then Raise ValueError
  else Ok {| width := x1 - x0; height := y1 - y0;
             pixels := grid (x1 - x0) (y1 - y0)
               (fun x y => getpixel im (x + x0) (y + y0)) |}.

(** [ImageOps.expand]: a new image of the enlarged size filled with [fill],
    with [im] pasted at [(left, top)]. *)
Definition expand (im : image) (border : Z * Z * Z * Z) (fill : Color)
  : result image :=
  let '(l, t, r, b) := border in
  out <- new (l + width im + r, t + height im + b) fill ;;
  paste out im (l, t).

Definition backend
  (unique_colors : image -> result (list Color))
  (get_color : image -> result Color)
  (get_palette : image -> nat -> result (list Color)) : Backend :=
  Build_Backend image size new paste resize crop expand
                unique_colors get_color get_palette.

(** An image of one colour. *)
Definition solid (w h : Z) (c : Color) : image :=
  {| width := w; height := h; pixels := grid w h (fun _ _ => c) |}.

End Raster.

(** ** Specification vocabulary *)

(** The number of accepted colours whose red channel is more than 10 away
    from that of [c]. *)
Definition far_reds (saved_colors : list Color) (c : Color) : Z :=
  Z.of_nat
    (length (filter (fun s => 10 <? Z.abs (red c - red s)) saved_colors)).


(** The keys of a list of scored colours descend. *)
Fixpoint descending (l : list Scored) : Prop :=
  match l with
  | [] => True
  | x :: l' => Forall (fun y => hits y <= hits x) l' /\ descending l'
  end.

(** The number of channels of [c] that exceed 160. *)
Definition bright_channels (c : Color) : Z :=
  Z.of_nat (length (filter (fun v => 160 <? v) (channels c))).

(** Column [x] lies in slice [i]. *)
Definition in_slice (width height : Z) (i : nat) (x : Z) : Prop :=
  let '(x0, _, x1, _) := slice_box width height i in x0 <= x < x1.

(** The width of the rectangle that iteration [color] of the strip loop
    creates, for a palette of [len] colours. *)
Definition segment_width (w div_palette : Z) (len color : nat) : Z :=
  if (color =? 0)%nat then div_palette
  else if (color =? len - 1)%nat
       then div_palette + last_leftover w div_palette len
       else div_palette.

Definition segment_widths (w div_palette : Z) (len : nat) : list Z :=
  map (segment_width w div_palette len) (range 0 len).

Definition sumZ (l : list Z) : Z := fold_right Z.add 0 l.

(** Iteration [color] of the strip loop, as a rectangle of width
    [segment_width] pasted at [x = color * div_palette]. *)
Definition paste_segment (B : Backend) (palette : list Color)
  (w div_palette border : Z) (bg : Image B) (color : nat)
  : result (Image B) :=
  img_color <- Image_new B
                 (segment_width w div_palette (length palette) color, border)
                 (nth color palette white) ;;
  Image_paste B bg img_color (Z.of_nat color * div_palette, 0).

(** [NotEnoughColors] is kinobot's own exception: no library call raises
    it. *)
Definition builtin (e : exn) : bool :=
  match e with
  | NotEnoughColors _ => false
  | _ => true
  end.

Definition raises_builtin {A : Type} (r : result A) : Prop :=
  match r with
  | Ok _ => True
  | Raise e => builtin e = true
  end.

Definition library_exceptions (B : Backend) : Prop :=
  (forall sz c, raises_builtin (Image_new B sz c)) /\
  (forall bg im box, raises_builtin (Image_paste B bg im box)) /\
  (forall im sz, raises_builtin (Image_resize B im sz)) /\
  (forall im border c, raises_builtin (ImageOps_expand B im border c)).

(** What the layout code relies on from Pillow: [Image.new] refuses a
    negative size and otherwise returns an image of the size asked for,
    [paste] keeps the size of the image pasted onto, and [ImageOps.expand]
    adds the borders to the size. *)
Record pillow_sizes (B : Backend) : Prop := {
  new_size : forall w h c, 0 <= w -> 0 <= h ->
    exists im, Image_new B (w, h) c = Ok im /\ size B im = (w, h);
  new_negative : forall w h c, w < 0 \/ h < 0 ->
    Image_new B (w, h) c = Raise ValueError;
  paste_size : forall bg im box,
    exists bg', Image_paste B bg im box = Ok bg' /\ size B bg' = size B bg;
  expand_size : forall im w h l t r b c,
    size B im = (w, h) -> 0 <= l + w + r -> 0 <= t + h + b ->
    exists out, ImageOps_expand B im (l, t, r, b) c = Ok out /\
                size B out = (l + w + r, t + h + b)
}.

(** ** Sample inputs *)

Definition ten_colors : list Color :=
  [(10, 10, 10); (30, 60, 90); (50, 50, 50); (70, 20, 20); (90, 90, 90);
   (110, 30, 200); (130, 130, 130); (150, 40, 40); (200, 0, 0); (0, 100, 0)].

Module Sample.

Definition Color_eq_dec (c d : Color) : {c = d} + {c <> d}.
Proof. repeat decide equality. Defined.

(** [len cs] vertical bands of the colours [cs]. *)
Definition bands (w h : Z) (cs : list Color) : Raster.image :=
  {| Raster.width := w; Raster.height := h;
     Raster.pixels :=
       Raster.grid w h
         (fun x _ => nth (Z.to_nat (x * Z.of_nat (length cs) / w)) cs white)
  |}.

(** Stand-ins for the extractors, enough to run the functions on a raster:
    the distinct colours of the image in scan order. *)
Definition scan_colors (im : Raster.image) : list Color :=
  fold_left
    (fun seen c => if in_dec Color_eq_dec c seen then seen else seen ++ [c])
    (concat (Raster.pixels im)) [].

Definition unique_colors (im : Raster.image) : result (list Color) :=
  Ok (firstn 10 (scan_colors im)).

Definition get_color (im : Raster.image) : result Color :=
  match scan_colors im with
  | [] => Raise OtherError
  | c :: _ => Ok c
  end.

Definition get_palette (im : Raster.image) (n : nat) : result (list Color) :=
  Ok (firstn n (scan_colors im)).

Definition backend : Backend :=
  Raster.backend unique_colors get_color get_palette.

(** A 100 by 40 image, a 120 by 60 image and a 30 by 4 image of ten bands, and
    a 4 by 3 image of one colour. *)
Definition wide : Raster.image := bands 100 40 ten_colors.
Definition frame : Raster.image := bands 120 60 ten_colors.
Definition ribbon : Raster.image := bands 30 4 ten_colors.
Definition plain : Raster.image := Raster.solid 4 3 (20, 40, 60).

End Sample.

(** ** Further vocabulary *)

(** All three channels exceed 160. *)
Definition too_white (c : Color) : Prop :=
  let '(r, g, b) := c in 160 < r /\ 160 < g /\ 160 < b.

(** A backend whose ColorThief finds a dominant colour but no palette. *)
Definition mute_backend : Backend :=
  Raster.backend Sample.unique_colors
                 (fun _ => Ok (1, 2, 3)) (fun _ _ => Ok []).

(** A backend whose Wand extraction yields [ten_colors] for every image. *)
Definition ten_backend : Backend :=
  Raster.backend (fun _ => Ok ten_colors) Sample.get_color Sample.get_palette.

(** The colour of column [x] of the finished strip: the rectangles before
    the last are [div_palette] wide, the last one starts at
    [(len - 1) * div_palette], and what no rectangle reaches stays white. *)
Definition strip_color (palette : list Color) (w div_palette : Z) (x : Z)
  : Color :=
  let len := length palette in
  let last_x := (Z.of_nat len - 1) * div_palette in
  if x <? last_x then nth (Z.to_nat (x / div_palette)) palette white
  else if x <? last_x + segment_width w div_palette len (len - 1)
       then nth (len - 1) palette white
       else white.

(** The pixel at [(x, y)] of the composed image: the strip in the rows from
    [h] on, the input shifted by the border, and the first palette colour
    around it. *)
Definition composed_pixel (im : Raster.image) (palette : list Color)
  (border div_palette : Z) (x y : Z) : Color :=
  let w := Raster.width im in
  let h := Raster.height im in
  if h <=? y then strip_color palette w div_palette x
  else if (border <=? x) && (x <? border + w) && (border <=? y)
       then Raster.getpixel im (x - border) (y - border)
       else nth 0 palette white.

(** [div_palette] of the modern layout, from the width, the border and the
    number of colours. *)
Definition layout_div (w border : Z) (len : nat) : Z :=
  py_int (inject_Z (w + border * 2) / inject_Z (Z.of_nat len)).

(** Iteration [color] of the legacy strip loop, as a rectangle
    [off_palette] wide pasted at [x = color * div_palette]. *)
Definition paste_legacy_segment (B : Backend) (palette : list Color)
  (div_palette off_palette height_palette : Z) (bg : Image B) (color : nat)
  : result (Image B) :=
  img_color <- Image_new B (off_palette, height_palette)
                         (nth color palette white) ;;
  Image_paste B bg img_color (Z.of_nat color * div_palette, 0).

(** A 30 by 20 image of ten bands. *)
Definition banner : Raster.image := Sample.bands 30 20 ten_colors.

(** * Properties *)

(** ** Sample runs *)

Example clean_colors_cuts_white_tail :
  clean_colors [(10, 20, 30); (250, 250, 250); (40, 50, 60); (70, 80, 90);
                (1, 2, 3); (200, 200, 100); (161, 161, 161); (5, 5, 5)]
               default_tolerancy
  = Some [(10, 20, 30); (250, 250, 250); (40, 50, 60); (70, 80, 90);
          (1, 2, 3); (200, 200, 100)].
Proof. reflexivity. Qed.

Example get_most_diff_tie :
  get_most_diff [(0, 0, 0)] [(5, 9, 9); (100, 1, 1); (200, 2, 2)]
  = Ok {| color := (100, 1, 1); hits := 1 |}.
Proof. reflexivity. Qed.

Example get_most_diff_no_candidate :
  get_most_diff [(0, 0, 0)] [] = Raise IndexError.
Proof. reflexivity. Qed.

Example get_colors_alt_ribbon :
  get_colors_alt Sample.backend Sample.ribbon = Ok ten_colors.
Proof. vm_compute; reflexivity. Qed.

Example get_palette_plain :
  get_palette Sample.backend Sample.plain default_border true
  = Ok Sample.plain.
Proof. vm_compute; reflexivity. Qed.

(** ** clean_colors *)

Lemma white_hits_bright (c : Color) : white_hits c = bright_channels c.
Proof.
  destruct c as [[r g] b].
  unfold white_hits, bright_channels; simpl.
  rewrite !Z.gtb_ltb.
  destruct (160 <? r), (160 <? g), (160 <? b); reflexivity.
Qed.

Lemma bright_channels_bounds (c : Color) : 0 <= bright_channels c <= 3.
Proof.
  destruct c as [[r g] b]; unfold bright_channels; simpl.
  destruct (160 <? r), (160 <? g), (160 <? b); simpl; lia.
Qed.

(** The loop either runs to its end and returns the list, or stops at the
    first bright index of its range. *)
Lemma clean_loop_cases (colors : list Color) (t : Z) (n a : nat) :
  ((forall j, (a <= j < a + n)%nat ->
       bright_channels (nth j colors white) <= t) /\
   clean_loop colors t (range a n) = colors)
  \/
  (exists i, (a <= i < a + n)%nat /\
       t < bright_channels (nth i colors white) /\
       (forall j, (a <= j < i)%nat ->
          bright_channels (nth j colors white) <= t) /\
       clean_loop colors t (range a n) = firstn i colors).
Proof.
  revert a; induction n as [|n IH]; intros a.
  - left; split; [intros j Hj; lia | reflexivity].
  - unfold range in *; cbn [seq clean_loop].
    rewrite white_hits_bright.
    destruct (bright_channels (nth a colors white) >? t) eqn:Hcut.
    + right; exists a.
      apply Z.gtb_lt in Hcut.
      repeat split; try lia.
    + assert (Ha : bright_channels (nth a colors white) <= t).
      { destruct (Z.gtb_spec (bright_channels (nth a colors white)) t);
          [discriminate | lia]. }
      destruct (IH (S a)) as [[Hall Heq] | (i & Hi & Hb & Hbefore & Heq)].
      * left; split; [|exact Heq].
        intros j Hj.
        destruct (Nat.eq_dec j a) as [->|Hne]; [exact Ha | apply Hall; lia].
      * right; exists i; repeat split; try lia; [|exact Heq].
        intros j Hj.
        destruct (Nat.eq_dec j a) as [->|Hne]; [exact Ha | apply Hbefore; lia].
Qed.

Lemma clean_colors_long (colors : list Color) (t : Z) :
  (6 <= length colors)%nat ->
  clean_colors colors t =
  Some (clean_loop colors t (range 5 (length colors - 5))).
Proof.
  intros Hlen; unfold clean_colors.
  destruct (Nat.ltb_spec (length colors) 6); [lia | reflexivity].
Qed.

Lemma clean_colors_short (colors : list Color) (t : Z) :
  (length colors < 6)%nat -> clean_colors colors t = None.
Proof.
  intros Hlen; unfold clean_colors.
  destruct (Nat.ltb_spec (length colors) 6); [reflexivity | lia].
Qed.

Lemma clean_colors_some_prefix (colors kept : list Color) (t : Z) :
  clean_colors colors t = Some kept ->
  (6 <= length colors)%nat /\
  exists n, (5 <= n <= length colors)%nat /\ kept = firstn n colors.
Proof.
  unfold clean_colors.
  destruct (Nat.ltb_spec (length colors) 6) as [Hlt|Hge]; [discriminate|].
  intros [= <-]; split; [exact Hge|].
  destruct (clean_loop_cases colors t (length colors - 5) 5)
    as [[_ Heq] | (i & Hi & _ & _ & Heq)].
  - exists (length colors); split; [lia|].
    rewrite firstn_all; exact Heq.
  - exists i; split; [lia | exact Heq].
Qed.

(** A list shorter than 6 is not returned: the guard answers [None]. *)
Lemma clean_colors_short_not_identity :
  let c := [(200, 200, 200)] in
  (length c < 6)%nat /\ clean_colors c default_tolerancy <> Some c.
Proof. split; [simpl; lia | discriminate]. Qed.

Lemma get_palette_short (B : Backend) (im : Image B) (border : Q)
  (wand : bool) (colors : list Color) :
  color_func B wand im = Ok colors ->
  (length colors < 6)%nat ->
  get_palette B im border wand = Ok im.
Proof.
  intros Hcol Hlen; unfold get_palette.
  rewrite Hcol, clean_colors_short by exact Hlen; reflexivity.
Qed.

(** C4 (amended): for every colour list with fewer than 6 elements
    [clean_colors] returns [None], the "too short" signal, whatever the
    tolerance; it does not hand the list back.  [get_palette] answers the
    signal by returning the original image. *)
Theorem clean_colors_too_short (c : list Color) (t : Z) :
  (length c < 6)%nat ->
  clean_colors c t = None /\
  forall (B : Backend) (im : Image B) (border : Q) (wand : bool),
    color_func B wand im = Ok c -> get_palette B im border wand = Ok im.
Proof.
  intros Hlen; split; [apply clean_colors_short; exact Hlen|].
  intros B im border wand Hcol.
  exact (get_palette_short B im border wand c Hcol Hlen).
Qed.

Lemma clean_colors_too_short_witness :
  (length [(1, 2, 3); (4, 5, 6)] < 6)%nat /\
  clean_colors [(1, 2, 3); (4, 5, 6)] default_tolerancy = None.
Proof.
  split; [simpl; lia|].
  apply (clean_colors_too_short [(1, 2, 3); (4, 5, 6)] default_tolerancy).
  simpl; lia.
Defined.

(** C7: on a list of at least 6 colours [clean_colors] scans from index 5,
    counting for each colour the channels above 160.  At the first index
    whose count exceeds the tolerance it returns the colours strictly before
    that index; when there is no such index it returns the whole list.  In
    both cases the first 5 colours are kept. *)
Theorem clean_colors_scan (colors : list Color) (t : Z) :
  (6 <= length colors)%nat ->
  (forall i, (5 <= i < length colors)%nat ->
     t < bright_channels (nth i colors white) ->
     (forall j, (5 <= j < i)%nat ->
        bright_channels (nth j colors white) <= t) ->
     clean_colors colors t = Some (firstn i colors)) /\
  ((forall j, (5 <= j < length colors)%nat ->
      bright_channels (nth j colors white) <= t) ->
   clean_colors colors t = Some colors) /\
  (exists kept, clean_colors colors t = Some kept /\
     firstn 5 kept = firstn 5 colors).
Proof.
  intros Hlen; rewrite clean_colors_long by exact Hlen.
  destruct (clean_loop_cases colors t (length colors - 5) 5)
    as [[Hall Heq] | (i & Hi & Hb & Hbefore & Heq)]; rewrite Heq.
  - repeat split.
    + intros i Hi Hb _.
      specialize (Hall i ltac:(lia)); lia.
    + exists colors; split; reflexivity.
  - repeat split.
    + intros i' Hi' Hb' Hbefore'.
      destruct (Nat.lt_trichotomy i i') as [Hlt | [-> | Hgt]].
      * specialize (Hbefore' i ltac:(lia)); lia.
      * reflexivity.
      * specialize (Hbefore i' ltac:(lia)); lia.
    + intros Hall; specialize (Hall i ltac:(lia)); lia.
    + exists (firstn i colors); split; [reflexivity|].
      rewrite firstn_firstn; f_equal; lia.
Qed.

Lemma clean_colors_scan_witness :
  let colors := [(10, 20, 30); (250, 250, 250); (40, 50, 60); (70, 80, 90);
                 (1, 2, 3); (200, 200, 100); (161, 161, 161); (5, 5, 5)] in
  (6 <= length colors)%nat /\
  clean_colors colors default_tolerancy = Some (firstn 6 colors).
Proof.
  intros colors; split; [simpl; lia|].
  refine (proj1 (clean_colors_scan colors default_tolerancy _) 6%nat _ _ _).
  - simpl; lia.
  - simpl; lia.
  - vm_compute; reflexivity.
  - intros j Hj; assert (j = 5%nat) as -> by lia.
    vm_compute; discriminate.
Defined.

(** C10: whenever [clean_colors] returns a list, its input has at least 6
    colours and the result is a prefix of the input of length at least 5:
    nothing is reordered or changed, only a suffix starting at an index of at
    least 5 may be dropped. *)
Theorem clean_colors_prefix (colors kept : list Color) (t : Z) :
  clean_colors colors t = Some kept ->
  (6 <= length colors)%nat /\
  exists n, (5 <= n <= length colors)%nat /\
    kept = firstn n colors /\ length kept = n /\
    colors = kept ++ skipn n colors.
Proof.
  intros H; apply clean_colors_some_prefix in H.
  destruct H as (Hlen & n & Hn & ->); split; [exact Hlen|].
  exists n; repeat split; try lia.
  - rewrite length_firstn; lia.
  - symmetry; apply firstn_skipn.
Qed.

Lemma clean_colors_prefix_witness :
  let colors := [(10, 20, 30); (250, 250, 250); (40, 50, 60); (70, 80, 90);
                 (1, 2, 3); (200, 200, 100); (161, 161, 161); (5, 5, 5)] in
  clean_colors colors default_tolerancy = Some (firstn 6 colors) /\
  (6 <= length colors)%nat.
Proof.
  intros colors.
  assert (H : clean_colors colors default_tolerancy = Some (firstn 6 colors))
    by (vm_compute; reflexivity).
  split; [exact H|].
  exact (proj1 (clean_colors_prefix colors (firstn 6 colors)
                                    default_tolerancy H)).
Defined.

(** ** get_most_diff *)

Lemma count_hits_far_reds (saved_colors : list Color) (c : Color) :
  count_hits saved_colors c = far_reds saved_colors c.
Proof.
  unfold count_hits, far_reds.
  assert (G : forall l acc,
    fold_left (fun hits saved =>
                 if Z.abs (red c - red saved) >? 10 then hits + 1 else hits)
              l acc =
    acc + Z.of_nat
            (length (filter (fun s => 10 <? Z.abs (red c - red s)) l))).
  { induction l as [|s l IH]; intros acc; simpl; [lia|].
    rewrite IH, Z.gtb_ltb.
    destruct (10 <? Z.abs (red c - red s)); simpl length; lia. }
  rewrite G; lia.
Qed.

(** The sort model is a sort: it permutes its input, the keys descend, and
    elements of equal key keep their order. *)
Lemma insert_desc_perm (x : Scored) (l : list Scored) :
  Permutation (x :: l) (insert_desc x l).
Proof.
  induction l as [|y l IH]; simpl; [reflexivity|].
  destruct (hits y <=? hits x); [reflexivity|].
  rewrite perm_swap; constructor; exact IH.
Qed.

Lemma sorted_hits_desc_perm (l : list Scored) :
  Permutation l (sorted_hits_desc l).
Proof.
  induction l as [|x l IH]; simpl; [constructor|].
  rewrite <- insert_desc_perm; constructor; exact IH.
Qed.

Lemma insert_desc_descending (x : Scored) (l : list Scored) :
  descending l -> descending (insert_desc x l).
Proof.
  induction l as [|y l IH]; simpl; [auto|].
  intros [Hy Hl].
  destruct (Z.leb_spec (hits y) (hits x)) as [Hle|Hgt]; simpl.
  - repeat split; auto.
    constructor; [exact Hle|].
    eapply Forall_impl; [|exact Hy]; simpl; intros; lia.
  - split; [|auto].
    eapply Permutation_Forall; [apply insert_desc_perm|].
    constructor; [lia | exact Hy].
Qed.

Lemma sorted_hits_desc_descending (l : list Scored) :
  descending (sorted_hits_desc l).
Proof.
  induction l as [|x l IH]; simpl; [exact I|].
  apply insert_desc_descending; exact IH.
Qed.

Lemma insert_desc_stable (k : Z) (x : Scored) (l : list Scored) :
  filter (fun y => hits y =? k) (insert_desc x l) =
  filter (fun y => hits y =? k) (x :: l).
Proof.
  induction l as [|y l IH]; [reflexivity|].
  cbn [insert_desc].
  destruct (Z.leb_spec (hits y) (hits x)) as [Hle|Hgt]; [reflexivity|].
  cbn [filter] in *; rewrite IH.
  destruct (Z.eqb_spec (hits x) k), (Z.eqb_spec (hits y) k);
    try reflexivity; lia.
Qed.

Lemma sorted_hits_desc_stable (k : Z) (l : list Scored) :
  filter (fun y => hits y =? k) (sorted_hits_desc l) =
  filter (fun y => hits y =? k) l.
Proof.
  induction l as [|x l IH]; [reflexivity|].
  cbn [sorted_hits_desc fold_right].
  rewrite insert_desc_stable; cbn [filter].
  fold (sorted_hits_desc l); rewrite IH; reflexivity.
Qed.

Lemma sorted_hits_desc_nonempty (l : list Scored) :
  l <> [] -> sorted_hits_desc l <> [].
Proof.
  intros Hne Hs.
  pose proof (sorted_hits_desc_perm l) as Hp; rewrite Hs in Hp.
  apply Permutation_sym, Permutation_nil in Hp; contradiction.
Qed.

Lemma get_most_diff_returns (saved_colors new_colors : list Color) :
  new_colors <> [] ->
  exists best, get_most_diff saved_colors new_colors = Ok best.
Proof.
  intros Hne; unfold get_most_diff.
  destruct (sorted_hits_desc (score_all saved_colors new_colors)) eqn:Hs.
  - exfalso; revert Hs; apply sorted_hits_desc_nonempty.
    destruct new_colors; [congruence | discriminate].
  - eexists; reflexivity.
Qed.

(** The head of the sorted list is the first element of maximal key. *)
Lemma sorted_hits_desc_head (l : list Scored) :
  l <> [] ->
  exists i best,
    hd_error (sorted_hits_desc l) = Some best /\
    nth_error l i = Some best /\
    (forall j y, nth_error l j = Some y -> hits y <= hits best) /\
    (forall j y, (j < i)%nat -> nth_error l j = Some y ->
       hits y < hits best).
Proof.
  induction l as [|x l IH]; [congruence|]; intros _.
  destruct l as [|x' l'].
  - exists 0%nat, x.
    split; [reflexivity|]; split; [reflexivity|]; split.
    + intros [|[|j]] y; simpl; intros [= <-]; lia.
    + intros j y Hj; lia.
  - destruct IH as (i & best & Hhd & Hnth & Hmax & Hbefore); [congruence|].
    change (sorted_hits_desc (x :: x' :: l'))
      with (insert_desc x (sorted_hits_desc (x' :: l'))).
    destruct (sorted_hits_desc (x' :: l')) as [|b rest]; [discriminate|].
    injection Hhd as ->.
    cbn [insert_desc].
    destruct (Z.leb_spec (hits best) (hits x)) as [Hle|Hgt].
    + exists 0%nat, x.
      split; [reflexivity|]; split; [reflexivity|]; split.
      * intros [|j] y; cbn [nth_error]; [intros [= <-]; lia|].
        intros Hy; specialize (Hmax j y Hy); lia.
      * intros j y Hj; lia.
    + exists (S i), best.
      split; [reflexivity|]; split; [exact Hnth|]; split.
      * intros [|j] y; cbn [nth_error]; [intros [= <-]; lia|].
        apply Hmax.
      * intros [|j] y Hj; cbn [nth_error]; [intros [= <-]; lia|].
        apply Hbefore; lia.
Qed.

(** C8: for a non-empty candidate list, [get_most_diff] returns a candidate
    together with its hit count, the number of accepted colours whose red
    channel differs from the candidate's by more than 10; no candidate has
    more hits, and every candidate listed before the returned one has
    strictly fewer: ties go to the first occurrence. *)
Theorem get_most_diff_first_max (saved_colors new_colors : list Color) :
  new_colors <> [] ->
  exists i c,
    nth_error new_colors i = Some c /\
    get_most_diff saved_colors new_colors =
      Ok {| color := c; hits := far_reds saved_colors c |} /\
    (forall j c', nth_error new_colors j = Some c' ->
       far_reds saved_colors c' <= far_reds saved_colors c) /\
    (forall j c', (j < i)%nat -> nth_error new_colors j = Some c' ->
       far_reds saved_colors c' < far_reds saved_colors c).
Proof.
  intros Hne.
  destruct (sorted_hits_desc_head (score_all saved_colors new_colors))
    as (i & best & Hhd & Hnth & Hmax & Hbefore).
  { destruct new_colors; [congruence | discriminate]. }
  unfold score_all in Hnth.
  rewrite nth_error_map in Hnth.
  destruct (nth_error new_colors i) as [c|] eqn:Hc; [|discriminate].
  injection Hnth as <-.
  rewrite count_hits_far_reds in *.
  exists i, c.
  split; [exact Hc|]; split; [|split].
  - unfold get_most_diff.
    destruct (sorted_hits_desc (score_all saved_colors new_colors));
      [discriminate|].
    injection Hhd as ->; reflexivity.
  - intros j c' Hj.
    specialize (Hmax j {| color := c'; hits := count_hits saved_colors c' |}).
    rewrite count_hits_far_reds in Hmax; apply Hmax.
    unfold score_all; rewrite nth_error_map, Hj; simpl.
    rewrite count_hits_far_reds; reflexivity.
  - intros j c' Hlt Hj.
    specialize (Hbefore j
      {| color := c'; hits := count_hits saved_colors c' |} Hlt).
    rewrite count_hits_far_reds in Hbefore; apply Hbefore.
    unfold score_all; rewrite nth_error_map, Hj; simpl.
    rewrite count_hits_far_reds; reflexivity.
Qed.

Lemma get_most_diff_first_max_witness :
  let saved := [(0, 0, 0); (50, 0, 0)] in
  let new := [(5, 0, 0); (100, 1, 1); (200, 2, 2); (45, 0, 0)] in
  new <> [] /\
  exists i c, nth_error new i = Some c /\
    get_most_diff saved new = Ok {| color := c; hits := far_reds saved c |}.
Proof.
  intros saved new.
  assert (Hne : new <> []) by discriminate.
  split; [exact Hne|].
  destruct (get_most_diff_first_max saved new Hne) as (i & c & Hc & Hg & _).
  exists i, c; split; assumption.
Defined.

(** ** Truncating division *)

(** [int(a / b)] on integers with a positive divisor is the quotient rounded
    toward zero. *)
Lemma py_int_div (a b : Z) :
  0 < b -> py_int (inject_Z a / inject_Z b) = Z.quot a b.
Proof.
  intros Hb; destruct b as [|p|p]; try lia.
  unfold py_int, Qdiv, Qinv, Qmult, inject_Z; simpl.
  rewrite Z.mul_1_r; reflexivity.
Qed.

Lemma quot_nonneg_bounds (a b : Z) :
  0 <= a -> 0 < b -> 0 <= Z.quot a b /\ b * Z.quot a b <= a < b * Z.quot a b + b.
Proof.
  intros Ha Hb.
  rewrite Z.quot_div_nonneg by lia.
  pose proof (Z.div_mod a b ltac:(lia)).
  pose proof (Z.mod_pos_bound a b Hb).
  pose proof (Z.div_pos a b Ha Hb).
  lia.
Qed.

(** ** get_colors_alt *)

Lemma slice_box_eq (width height : Z) (i : nat) :
  slice_box width height i =
  (Z.of_nat i * Z.quot width 10, 0,
   Z.quot width 10 + Z.of_nat i * Z.quot width 10, height).
Proof.
  unfold slice_box.
  change 10%Q with (inject_Z 10).
  rewrite py_int_div by lia; reflexivity.
Qed.

Lemma in_slice_iff (width height : Z) (i : nat) (x : Z) :
  in_slice width height i x <->
  Z.of_nat i * Z.quot width 10 <= x < (Z.of_nat i + 1) * Z.quot width 10.
Proof. unfold in_slice; rewrite slice_box_eq; lia. Qed.

Lemma slice_step_length (B : Backend) (im : Image B)
  (saved_colors colors : list Color) (i : nat) :
  slice_step B im saved_colors i = Ok colors ->
  length colors = S (length saved_colors).
Proof.
  unfold slice_step.
  destruct (size B im) as [width height].
  destruct (Image_crop B im (slice_box width height i)) as [cropped|e];
    [|discriminate]; cbn [bind].
  destruct (i =? 0)%nat.
  - destruct (thief_get_color B cropped); [|discriminate]; cbn [bind].
    intros [= <-]; rewrite length_app; simpl; lia.
  - destruct (thief_get_palette B cropped 100); [|discriminate]; cbn [bind].
    destruct (get_most_diff saved_colors a); [|discriminate]; cbn [bind].
    intros [= <-]; rewrite length_app; simpl; lia.
Qed.

Lemma slice_loop_length (B : Backend) (im : Image B) (rng : list nat) :
  forall saved_colors colors,
    for_each (slice_step B im) rng saved_colors = Ok colors ->
    length colors = (length saved_colors + length rng)%nat.
Proof.
  induction rng as [|i rng IH]; intros saved_colors colors; cbn [for_each].
  - intros [= <-]; simpl; lia.
  - destruct (slice_step B im saved_colors i) as [saved'|e] eqn:Hstep;
      [|discriminate]; cbn [bind].
    intros H; apply IH in H.
    apply slice_step_length in Hstep; simpl; lia.
Qed.

(** When Pillow and ColorThief succeed on every slice and ColorThief finds a
    candidate in each, the extraction returns. *)
Lemma get_colors_alt_returns (B : Backend) (im : Image B) :
  (forall i, (i < 10)%nat ->
     exists cropped,
       Image_crop B im (slice_box (fst (size B im)) (snd (size B im)) i)
         = Ok cropped /\
       (exists c, thief_get_color B cropped = Ok c) /\
       (exists cs, thief_get_palette B cropped 100 = Ok cs /\ cs <> [])) ->
  exists colors, get_colors_alt B im = Ok colors.
Proof.
  intros Hlib; unfold get_colors_alt.
  assert (G : forall n a saved_colors, (a + n <= 10)%nat ->
            exists colors,
              for_each (slice_step B im) (range a n) saved_colors
              = Ok colors).
  { induction n as [|n IH]; intros a saved_colors Han; unfold range in *;
      cbn [seq for_each]; [eexists; reflexivity|].
    assert (Hstep : exists s', slice_step B im saved_colors a = Ok s').
    { unfold slice_step.
      destruct (Hlib a ltac:(lia))
        as (cropped & Hcrop & [c Hc] & (cs & Hcs & Hne)).
      destruct (size B im) as [width height]; cbn [fst snd] in Hcrop.
      rewrite Hcrop; cbn [bind].
      destruct (a =? 0)%nat.
      - rewrite Hc; cbn [bind]; eexists; reflexivity.
      - rewrite Hcs; cbn [bind].
        destruct (get_most_diff_returns saved_colors cs Hne) as [best ->].
        cbn [bind]; eexists; reflexivity. }
    destruct Hstep as [s' ->]; cbn [bind].
    apply IH; lia. }
  apply G; lia.
Qed.

(** In a 105 pixel wide image column 102 is in none of the ten slices. *)
Lemma slices_leave_columns_out :
  0 <= 102 < 105 /\ forall i, (i < 10)%nat -> ~ in_slice 105 50 i 102.
Proof.
  split; [lia|].
  intros i Hi; rewrite in_slice_iff.
  change (Z.quot 105 10) with 10; lia.
Qed.

(** C9 (amended): the ten slices of [get_colors_alt] all have the width
    [int(width / 10)] and lie side by side from column 0.  Every column below
    [10 * int(width / 10)] belongs to exactly one slice; the columns from
    there on, fewer than 10, belong to none, so the slices cover the full
    width exactly when the width is a multiple of 10.  One colour is
    extracted per slice. *)
Theorem slices_partition (width height : Z) :
  0 <= width ->
  let slices := Z.quot width 10 in
  (forall i, slice_box width height i =
             (Z.of_nat i * slices, 0, Z.of_nat i * slices + slices, height)) /\
  (forall x, 0 <= x < 10 * slices ->
     exists i, (i < 10)%nat /\ in_slice width height i x /\
       forall j, in_slice width height j x -> j = i) /\
  (forall x i, (i < 10)%nat -> in_slice width height i x ->
     0 <= x < 10 * slices) /\
  10 * slices <= width < 10 * slices + 10 /\
  (forall (B : Backend) (im : Image B) colors,
     get_colors_alt B im = Ok colors -> length colors = 10%nat).
Proof.
  intros Hw slices.
  pose proof (quot_nonneg_bounds width 10 Hw ltac:(lia)) as [Hs Hb].
  fold slices in Hs, Hb.
  split; [|split; [|split; [|split]]].
  - intros i; rewrite slice_box_eq; fold slices; f_equal; f_equal; lia.
  - intros x Hx.
    assert (Hpos : 0 < slices) by lia.
    pose proof (quot_nonneg_bounds x slices ltac:(lia) Hpos) as [Hq Hqb].
    exists (Z.to_nat (Z.quot x slices)).
    split; [|split].
    + nia.
    + rewrite in_slice_iff; fold slices.
      rewrite Z2Nat.id by lia; lia.
    + intros j Hj; rewrite in_slice_iff in Hj; fold slices in Hj.
      apply Nat2Z.inj; rewrite Z2Nat.id by lia. nia.
  - intros x i Hi Hin; rewrite in_slice_iff in Hin; fold slices in Hin.
    nia.
  - lia.
  - intros B im colors H; unfold get_colors_alt in H.
    apply slice_loop_length in H; exact H.
Qed.

Lemma slices_partition_witness :
  0 <= 105 /\ 10 * Z.quot 105 10 <= 105 < 10 * Z.quot 105 10 + 10.
Proof.
  split; [lia|].
  exact (proj1 (proj2 (proj2 (proj2
           (slices_partition 105 50 ltac:(lia)))))).
Defined.

(** ** The strip of get_palette *)

Lemma last_leftover_eq (w div_palette : Z) (len : nat) :
  last_leftover w div_palette len =
  Z.quot (w - div_palette * (Z.of_nat len - 1)) 2.
Proof.
  unfold last_leftover.
  change 2%Q with (inject_Z 2).
  apply py_int_div; lia.
Qed.

(** One iteration of the loop creates the rectangle of [paste_segment] and
    advances [next_] by [div_palette]. *)
Lemma strip_step_segment (B : Backend) (palette : list Color)
  (w div_palette border : Z) (bg : Image B) (color : nat) :
  strip_step B palette w div_palette border
             (bg, Z.of_nat color * div_palette) color =
  (bg' <- paste_segment B palette w div_palette border bg color ;;
   Ok (bg', Z.of_nat (S color) * div_palette)).
Proof.
  unfold strip_step, paste_segment, segment_width.
  destruct (Nat.eqb_spec color 0) as [->|Hne].
  - change (Z.of_nat 0 * div_palette) with 0.
    destruct (Image_new B (div_palette, border) (nth 0 palette white))
      as [img|e]; cbn [bind]; [|reflexivity].
    destruct (Image_paste B bg img (0, 0)); cbn [bind]; [|reflexivity].
    f_equal; f_equal; lia.
  - destruct (color =? length palette - 1)%nat.
    + destruct (Image_new B _ (nth color palette white))
        as [img|e]; cbn [bind]; [|reflexivity].
      destruct (Image_paste B bg img _); cbn [bind]; [|reflexivity].
      f_equal; f_equal; lia.
    + destruct (Image_new B _ (nth color palette white))
        as [img|e]; cbn [bind]; [|reflexivity].
      destruct (Image_paste B bg img _); cbn [bind]; [|reflexivity].
      f_equal; f_equal; lia.
Qed.

Lemma strip_loop_from (B : Backend) (palette : list Color)
  (w div_palette border : Z) (n : nat) :
  forall (a : nat) (bg : Image B),
    for_each (strip_step B palette w div_palette border) (range a n)
             (bg, Z.of_nat a * div_palette) =
    (bg' <- for_each (paste_segment B palette w div_palette border)
                     (range a n) bg ;;
     Ok (bg', Z.of_nat (a + n) * div_palette)).
Proof.
  induction n as [|n IH]; intros a bg; unfold range in *; cbn [seq for_each].
  - cbn [bind]; rewrite Nat.add_0_r; reflexivity.
  - rewrite strip_step_segment.
    destruct (paste_segment B palette w div_palette border bg a) as [bg1|e];
      cbn [bind]; [|reflexivity].
    rewrite IH; replace (S a + n)%nat with (a + S n)%nat by lia.
    reflexivity.
Qed.

Lemma map_constant {A C : Type} (f : A -> C) (c : C) (l : list A) :
  (forall x, In x l -> f x = c) -> map f l = repeat c (length l).
Proof.
  induction l as [|x l IH]; intros H; simpl; [reflexivity|].
  rewrite H by (left; reflexivity).
  rewrite IH; [reflexivity|].
  intros y Hy; apply H; right; exact Hy.
Qed.

Lemma sumZ_app (l1 l2 : list Z) : sumZ (l1 ++ l2) = sumZ l1 + sumZ l2.
Proof. induction l1 as [|x l1 IH]; simpl; [reflexivity | rewrite IH; lia]. Qed.

Lemma sumZ_repeat (c : Z) (n : nat) : sumZ (repeat c n) = Z.of_nat n * c.
Proof. induction n as [|n IH]; [reflexivity|]. cbn [repeat sumZ fold_right].
  fold (sumZ (repeat c n)); rewrite IH; lia. Qed.

Lemma segment_widths_eq (w div_palette : Z) (len : nat) :
  (2 <= len)%nat ->
  segment_widths w div_palette len =
  repeat div_palette (len - 1) ++
  [div_palette + Z.quot (w - div_palette * (Z.of_nat len - 1)) 2].
Proof.
  intros Hlen; unfold segment_widths, range.
  replace len with (len - 1 + 1)%nat at 2 by lia.
  rewrite seq_app, map_app; cbn [seq map]; f_equal.
  - rewrite (map_constant _ div_palette), length_seq; [reflexivity|].
    intros i Hi; apply in_seq in Hi; unfold segment_width.
    destruct (Nat.eqb_spec i 0); [reflexivity|].
    destruct (Nat.eqb_spec i (len - 1)); [lia | reflexivity].
  - unfold segment_width; cbn [Nat.add].
    destruct (Nat.eqb_spec (len - 1) 0); [lia|].
    rewrite Nat.eqb_refl, last_leftover_eq; reflexivity.
Qed.

(** A 1000 pixel wide square image with a palette of 10 colours: the strip
    is 1030 wide, the ten rectangles are 9 of 103 and one of 139. *)
Lemma segment_widths_overshoot :
  layout_border 1000 1000 default_border = Ok 15 /\
  let new_w := 1000 + 15 * 2 in
  let div_palette := py_int (inject_Z new_w / inject_Z (Z.of_nat 10)) in
  sumZ (segment_widths 1000 div_palette 10) = 1066 /\
  sumZ (segment_widths 1000 div_palette 10) <> new_w.
Proof. split; [reflexivity|]. split; [reflexivity | discriminate]. Qed.

(** C5 (amended): for a palette of [len >= 2] colours the strip loop pastes
    rectangle [i] at [x = i * div_palette], [div_palette = int(new_w / len)].
    The first [len - 1] rectangles have the width [div_palette] and follow
    each other with no gap or overlap; the last has the width
    [div_palette + int((w - div_palette * (len - 1)) / 2)].  The widths sum to
    [len * div_palette + int((w - div_palette * (len - 1)) / 2)], which is
    [new_w] only when that leftover equals the remainder of [new_w] by
    [len]. *)
Theorem strip_segments (w new_w : Z) (len : nat) :
  (2 <= len)%nat ->
  let div_palette := py_int (inject_Z new_w / inject_Z (Z.of_nat len)) in
  let leftover := Z.quot (w - div_palette * (Z.of_nat len - 1)) 2 in
  div_palette = Z.quot new_w (Z.of_nat len) /\
  segment_widths w div_palette len =
    repeat div_palette (len - 1) ++ [div_palette + leftover] /\
  (forall i, (i < len - 1)%nat ->
     Z.of_nat i * div_palette + segment_width w div_palette len i =
     Z.of_nat (S i) * div_palette) /\
  sumZ (segment_widths w div_palette len) =
    Z.of_nat len * div_palette + leftover /\
  (sumZ (segment_widths w div_palette len) = new_w <->
   leftover = Z.rem new_w (Z.of_nat len)) /\
  (forall (B : Backend) (palette : list Color) (border : Z) (bg : Image B),
     length palette = len ->
     for_each (strip_step B palette w div_palette border)
              (range 0 len) (bg, 0) =
     (bg' <- for_each (paste_segment B palette w div_palette border)
                      (range 0 len) bg ;;
      Ok (bg', Z.of_nat len * div_palette))).
Proof.
  intros Hlen div_palette leftover.
  assert (Hdiv : div_palette = Z.quot new_w (Z.of_nat len)).
  { unfold div_palette; apply py_int_div; lia. }
  assert (Hsum : sumZ (segment_widths w div_palette len) =
                 Z.of_nat len * div_palette + leftover).
  { rewrite segment_widths_eq by exact Hlen.
    rewrite sumZ_app, sumZ_repeat; fold leftover; simpl sumZ; lia. }
  split; [exact Hdiv|]; split; [|split; [|split; [|split]]].
  - apply segment_widths_eq; exact Hlen.
  - intros i Hi; unfold segment_width.
    destruct (Nat.eqb_spec i 0); [lia|].
    destruct (Nat.eqb_spec i (len - 1)); lia.
  - exact Hsum.
  - rewrite Hsum.
    pose proof (Z.quot_rem' new_w (Z.of_nat len)) as Hqr.
    rewrite <- Hdiv in Hqr; lia.
  - intros B palette border bg Hpal.
    exact (strip_loop_from B palette w div_palette border len 0%nat bg).
Qed.

Lemma strip_segments_witness :
  (2 <= 10)%nat /\
  sumZ (segment_widths 1000 (py_int (inject_Z 1030 / inject_Z (Z.of_nat 10)))
                       10) =
  Z.of_nat 10 * py_int (inject_Z 1030 / inject_Z (Z.of_nat 10)) +
  Z.quot (1000 - py_int (inject_Z 1030 / inject_Z (Z.of_nat 10)) *
                 (Z.of_nat 10 - 1)) 2.
Proof.
  split; [lia|].
  exact (proj1 (proj2 (proj2 (proj2
           (strip_segments 1000 1030 10 ltac:(lia)))))).
Defined.

(** ** The raster backend is a Pillow *)

Lemma raster_pillow_sizes unique_colors get_color get_palette :
  pillow_sizes (Raster.backend unique_colors get_color get_palette).
Proof.
  constructor; cbn [Image size Image_new Image_paste ImageOps_expand
                    Raster.backend].
  - intros w h c Hw Hh; unfold Raster.new.
    destruct (Z.ltb_spec w 0); [lia|].
    destruct (Z.ltb_spec h 0); [lia|].
    eexists; split; reflexivity.
  - intros w h c Hneg; unfold Raster.new.
    destruct (Z.ltb_spec w 0); [reflexivity|].
    destruct (Z.ltb_spec h 0); [reflexivity | lia].
  - intros bg im [x0 y0]; eexists; split; reflexivity.
  - intros im w h l t r b c Hsz Hw Hh.
    unfold Raster.size in Hsz; injection Hsz as Hwd Hht.
    unfold Raster.expand, Raster.new; rewrite Hwd, Hht.
    destruct (Z.ltb_spec (l + w + r) 0); [lia|].
    destruct (Z.ltb_spec (t + h + b) 0); [lia|].
    eexists; split; reflexivity.
Qed.

Lemma raster_library_exceptions unique_colors get_color get_palette :
  library_exceptions (Raster.backend unique_colors get_color get_palette).
Proof.
  unfold library_exceptions;
    cbn [Image Image_new Image_paste Image_resize ImageOps_expand
         Raster.backend].
  split; [|split; [|split]].
  - intros [w h] c; unfold Raster.new.
    destruct ((w <? 0) || (h <? 0)); exact I || reflexivity.
  - intros bg im [x0 y0]; exact I.
  - intros im [w h]; unfold Raster.resize.
    destruct ((w =? Raster.width im) && (h =? Raster.height im));
      [exact I|].
    destruct ((w <? 1) || (h <? 1)); exact I || reflexivity.
  - intros im [[[l t] r] b] c; unfold Raster.expand, Raster.new.
    destruct ((l + Raster.width im + r <? 0) ||
              (t + Raster.height im + b <? 0)); exact I || reflexivity.
Qed.

(** ** Which exceptions leave the composition *)

Lemma raises_builtin_bind {A C : Type} (m : result A) (k : A -> result C) :
  raises_builtin m -> (forall a, raises_builtin (k a)) ->
  raises_builtin (bind m k).
Proof. destruct m as [a|e]; simpl; auto. Qed.

Lemma raises_builtin_except {A : Type} (body handler : result A) :
  raises_builtin body -> raises_builtin handler ->
  raises_builtin (except_TypeError body handler).
Proof. destruct body as [a|[]]; simpl; auto. Qed.

Lemma raises_builtin_for_each {St Ix : Type} (body : St -> Ix -> result St)
  (rng : list Ix) :
  (forall s i, raises_builtin (body s i)) ->
  forall s, raises_builtin (for_each body rng s).
Proof.
  intros Hbody; induction rng as [|i rng IH]; intros s; cbn [for_each].
  - exact I.
  - apply raises_builtin_bind; [apply Hbody | exact IH].
Qed.

Lemma raises_builtin_truediv (a b : Q) : raises_builtin (truediv a b).
Proof. unfold truediv; destruct (Qeq_bool b 0); simpl; auto. Qed.

Lemma raises_builtin_not_enough {A : Type} (r : result A) (n : nat) :
  raises_builtin r -> r <> Raise (NotEnoughColors n).
Proof. intros H ->; simpl in H; discriminate. Qed.

Ltac raises_step :=
  first [ apply raises_builtin_bind; [|intros ?]
        | apply raises_builtin_except
        | apply raises_builtin_for_each; intros ? ?
        | apply raises_builtin_truediv
        | exact I ].

Lemma legacy_step_builtin (B : Backend) palette d o hp st color :
  library_exceptions B ->
  raises_builtin (legacy_step B palette d o hp st color).
Proof.
  intros (Hnew & Hpaste & _ & _); unfold legacy_step.
  destruct st as [bg next_].
  destruct (color =? 0)%nat;
    (apply raises_builtin_bind; [apply Hnew | intros img];
     apply raises_builtin_bind; [apply Hpaste | intros bg']; exact I).
Qed.

(** Past its guard the legacy layout raises nothing but built-in
    exceptions. *)
Lemma legacy_past_guard (B : Backend) (im : Image B) (wand : bool)
  (palette : list Color) :
  library_exceptions B ->
  color_func B wand im = Ok palette ->
  (10 <= length palette)%nat ->
  raises_builtin (get_palette_legacy B im wand).
Proof.
  intros HB Hcol Hlen; pose proof HB as (Hnew & Hpaste & Hresize & Hexpand).
  unfold get_palette_legacy.
  destruct (size B im) as [width height].
  rewrite Hcol; cbn [bind].
  destruct (Nat.ltb_spec (length palette) 10); [lia|].
  repeat raises_step.
  all: try match goal with
           | |- raises_builtin (let '(_, _) := ?x in _) =>
               destruct x as [bg' next_]; repeat raises_step
           end.
  all: auto using legacy_step_builtin.
Qed.

(** ** get_palette_legacy and short palettes *)

Lemma legacy_guard (B : Backend) (im : Image B) (wand : bool)
  (palette : list Color) :
  color_func B wand im = Ok palette ->
  (length palette < 10)%nat ->
  get_palette_legacy B im wand = Raise (NotEnoughColors (length palette)).
Proof.
  intros Hcol Hlen; unfold get_palette_legacy.
  destruct (size B im) as [width height].
  rewrite Hcol; cbn [bind].
  destruct (Nat.ltb_spec (length palette) 10); [reflexivity | lia].
Qed.

(** C3: once the palette is extracted, [get_palette_legacy] raises
    [NotEnoughColors] exactly when the palette has fewer than 10 colours, and
    then the exception, carrying the number found, is the result of the
    call: it is raised before the [try] and reaches the caller. *)
Theorem legacy_not_enough_colors (B : Backend) (im : Image B) (wand : bool)
  (palette : list Color) :
  library_exceptions B ->
  color_func B wand im = Ok palette ->
  ((exists n, get_palette_legacy B im wand = Raise (NotEnoughColors n)) <->
   (length palette < 10)%nat) /\
  ((length palette < 10)%nat ->
   get_palette_legacy B im wand = Raise (NotEnoughColors (length palette))).
Proof.
  intros HB Hcol; split; [split|].
  - intros [n Hn].
    destruct (Nat.lt_ge_cases (length palette) 10) as [Hlt|Hge]; [exact Hlt|].
    exfalso; revert Hn; apply raises_builtin_not_enough.
    exact (legacy_past_guard B im wand palette HB Hcol Hge).
  - intros Hlt; exists (length palette); apply legacy_guard; assumption.
  - apply legacy_guard; exact Hcol.
Qed.

Lemma legacy_not_enough_colors_witness :
  library_exceptions Sample.backend /\
  color_func Sample.backend true Sample.plain = Ok [(20, 40, 60)] /\
  ((exists n, get_palette_legacy Sample.backend Sample.plain true
              = Raise (NotEnoughColors n)) <->
   (length [(20, 40, 60)] < 10)%nat).
Proof.
  assert (HB : library_exceptions Sample.backend)
    by apply raster_library_exceptions.
  assert (Hcol : color_func Sample.backend true Sample.plain
                 = Ok [(20, 40, 60)]) by (vm_compute; reflexivity).
  split; [exact HB|]; split; [exact Hcol|].
  exact (proj1 (legacy_not_enough_colors Sample.backend Sample.plain true
                  [(20, 40, 60)] HB Hcol)).
Defined.

(** On an image of one colour the legacy layout raises instead of returning
    the image. *)
Lemma legacy_short_palette_raises :
  color_func Sample.backend true Sample.plain = Ok [(20, 40, 60)] /\
  (length [(20, 40, 60)] <= 1)%nat /\
  get_palette_legacy Sample.backend Sample.plain true
    = Raise (NotEnoughColors 1) /\
  forall out, get_palette_legacy Sample.backend Sample.plain true <> Ok out.
Proof.
  assert (H : get_palette_legacy Sample.backend Sample.plain true
              = Raise (NotEnoughColors 1)) by (vm_compute; reflexivity).
  split; [vm_compute; reflexivity|]; split; [simpl; lia|].
  split; [exact H|].
  intros out; rewrite H; discriminate.
Qed.

(** C2 (amended): when the extracted palette has 0 or 1 colours,
    [get_palette] returns the input image itself, and [get_palette_legacy]
    raises [NotEnoughColors] with the number of colours found. *)
Theorem short_palette_paths (B : Backend) (im : Image B) (border : Q)
  (wand : bool) (palette : list Color) :
  color_func B wand im = Ok palette ->
  (length palette <= 1)%nat ->
  get_palette B im border wand = Ok im /\
  get_palette_legacy B im wand = Raise (NotEnoughColors (length palette)).
Proof.
  intros Hcol Hlen; split.
  - apply (get_palette_short B im border wand palette Hcol); lia.
  - apply legacy_guard; [exact Hcol | lia].
Qed.

Lemma short_palette_paths_witness :
  color_func Sample.backend true Sample.plain = Ok [(20, 40, 60)] /\
  (length [(20, 40, 60)] <= 1)%nat /\
  get_palette Sample.backend Sample.plain default_border true
    = Ok Sample.plain.
Proof.
  assert (Hcol : color_func Sample.backend true Sample.plain
                 = Ok [(20, 40, 60)]) by (vm_compute; reflexivity).
  assert (Hlen : (length [(20, 40, 60)] <= 1)%nat) by (simpl; lia).
  split; [exact Hcol|]; split; [exact Hlen|].
  exact (proj1 (short_palette_paths Sample.backend Sample.plain
                  default_border true [(20, 40, 60)] Hcol Hlen)).
Defined.

(** ** get_palette *)

Lemma truediv_nonzero (a : Q) (h : Z) :
  h <> 0 -> truediv a (inject_Z h) = Ok (a / inject_Z h)%Q.
Proof.
  intros Hh; unfold truediv, Qeq_bool; simpl.
  destruct (Z.eqb_spec (h * 1) 0); [lia | reflexivity].
Qed.

Lemma layout_border_eq (w h : Z) (b : Q) :
  h <> 0 ->
  layout_border w h b =
  Ok (if negb (Qle_bool (inject_Z w / inject_Z h) 2.1)
      then py_int (inject_Z w * b) - py_int (inject_Z w / inject_Z h * 4)
      else py_int (inject_Z w * b)).
Proof.
  intros Hh; unfold layout_border.
  rewrite truediv_nonzero by exact Hh; cbn [bind].
  destruct (negb (Qle_bool (inject_Z w / inject_Z h) 2.1)); reflexivity.
Qed.

Lemma clean_colors_truthy (colors palette : list Color) (t : Z) :
  clean_colors colors t = Some palette ->
  falsy (Some palette) = false /\ (5 <= length palette)%nat.
Proof.
  intros H; apply clean_colors_some_prefix in H.
  destruct H as (Hlen & n & Hn & ->).
  assert (Hl : length (firstn n colors) = n) by (rewrite length_firstn; lia).
  split; [|lia].
  destruct (firstn n colors); [simpl in Hl; lia | reflexivity].
Qed.

Lemma get_palette_layout (B : Backend) (im : Image B) (border : Q)
  (wand : bool) (colors palette : list Color) :
  color_func B wand im = Ok colors ->
  clean_colors colors default_tolerancy = Some palette ->
  get_palette B im border wand = compose_layout B im palette border.
Proof.
  intros Hcol Hclean; unfold get_palette.
  rewrite Hcol, Hclean.
  destruct (clean_colors_truthy _ _ _ Hclean) as [-> _]; reflexivity.
Qed.

(** Pasting rectangles of non-negative size never fails and keeps the size
    of the strip. *)
Lemma paste_loop_size (B : Backend) (palette : list Color)
  (w div_palette border : Z) (rng : list nat) :
  pillow_sizes B -> 0 <= border ->
  (forall i, In i rng ->
     0 <= segment_width w div_palette (length palette) i) ->
  forall bg, exists bg',
    for_each (paste_segment B palette w div_palette border) rng bg = Ok bg' /\
    size B bg' = size B bg.
Proof.
  intros HB Hb; induction rng as [|i rng IH]; intros Hw bg; cbn [for_each].
  - exists bg; split; reflexivity.
  - unfold paste_segment at 1.
    destruct (new_size B HB
                (segment_width w div_palette (length palette) i) border
                (nth i palette white)) as (img & -> & _);
      [apply Hw; left; reflexivity | exact Hb |]; cbn [bind].
    destruct (paste_size B HB bg img (Z.of_nat i * div_palette, 0))
      as (bg1 & -> & Hsz1); cbn [bind].
    destruct (IH (fun j Hj => Hw j (or_intror Hj)) bg1) as (bg' & -> & Hsz).
    exists bg'; split; [reflexivity | congruence].
Qed.

(** The composed image: the input with the border on the left, on the right
    and on top. *)
Lemma compose_layout_size (B : Backend) (im : Image B) (b : Q) (w h : Z)
  (palette : list Color) :
  pillow_sizes B -> size B im = (w, h) -> 0 <= w -> 1 <= h ->
  palette <> [] ->
  let ratio := (inject_Z w / inject_Z h)%Q in
  let border :=
    if negb (Qle_bool ratio 2.1)
    then py_int (inject_Z w * b) - py_int (ratio * 4)
    else py_int (inject_Z w * b) in
  let new_w := w + border * 2 in
  let div_palette :=
    py_int (inject_Z new_w / inject_Z (Z.of_nat (length palette))) in
  0 <= border ->
  0 <= div_palette + last_leftover w div_palette (length palette) ->
  exists out, compose_layout B im palette b = Ok out /\
              size B out = (w + 2 * border, h + border).
Proof.
  intros HB Hsize Hw Hh Hpal ratio border new_w div_palette Hb Hlast.
  assert (Hlen : (0 < length palette)%nat)
    by (destruct palette; [congruence | simpl; lia]).
  assert (Hdiv : 0 <= div_palette).
  { unfold div_palette; rewrite py_int_div by lia.
    apply Z.quot_pos; lia. }
  unfold compose_layout; rewrite Hsize.
  rewrite layout_border_eq by lia.
  fold ratio; fold border; cbn [bind]; fold new_w; fold div_palette.
  destruct (new_size B HB new_w border white) as (bg & -> & Hbg);
    [lia | exact Hb |]; cbn [bind].
  pose proof (strip_loop_from B palette w div_palette border
                (length palette) 0%nat bg) as Hloop.
  change (Z.of_nat 0 * div_palette) with 0 in Hloop; rewrite Hloop.
  destruct (paste_loop_size B palette w div_palette border
              (range 0 (length palette)) HB Hb) with (bg := bg)
    as (strip & -> & Hstrip).
  { intros i Hi; unfold segment_width.
    destruct (i =? 0)%nat; [exact Hdiv|].
    destruct (i =? length palette - 1)%nat; [exact Hlast | exact Hdiv]. }
  cbn [bind].
  destruct (expand_size B HB im w h border border border 0
              (nth 0 palette white) Hsize) as (bordered & -> & Hbordered);
    [lia | lia |]; cbn [bind].
  destruct (paste_size B HB bordered strip (0, h)) as (out & -> & Hout).
  cbn [bind except_TypeError].
  exists out; split; [reflexivity|].
  rewrite Hout, Hbordered; f_equal; lia.
Qed.

(** With the default border of 1.5% and at most 10 colours, the number both
    extractors aim at, no rectangle of the strip has a negative width. *)
Lemma default_last_segment (w border : Z) (n : nat) :
  0 <= w -> 0 <= border -> 1000 * border <= 15 * w -> (1 <= n <= 10)%nat ->
  let div_palette :=
    py_int (inject_Z (w + border * 2) / inject_Z (Z.of_nat n)) in
  0 <= div_palette /\ 0 <= last_leftover w div_palette n.
Proof.
  intros Hw Hb Hsmall Hn div_palette.
  assert (Hdiv : div_palette = Z.quot (w + border * 2) (Z.of_nat n))
    by (apply py_int_div; lia).
  destruct (quot_nonneg_bounds (w + border * 2) (Z.of_nat n))
    as [Hq Hqb]; [lia | lia |].
  rewrite <- Hdiv in Hq, Hqb.
  split; [exact Hq|].
  rewrite last_leftover_eq.
  apply Z.quot_pos; [|lia].
  assert (Hwide : 2 * border <= div_palette) by nia.
  nia.
Qed.

(** [int(w * 0.015)] *)
Lemma default_border_int (w : Z) :
  py_int (inject_Z w * default_border) = Z.quot (w * 15) 1000.
Proof. reflexivity. Qed.

(** The default layout of an image that is not wide always composes. *)
Lemma default_layout_width (B : Backend) (im : Image B) (wand : bool)
  (w h : Z) (colors palette : list Color) :
  pillow_sizes B -> size B im = (w, h) -> 0 <= w -> 1 <= h ->
  color_func B wand im = Ok colors ->
  clean_colors colors default_tolerancy = Some palette ->
  (length palette <= 10)%nat ->
  Qle_bool (inject_Z w / inject_Z h) 2.1 = true ->
  exists out, get_palette B im default_border wand = Ok out /\
              size B out = (w + 2 * Z.quot (w * 15) 1000,
                            h + Z.quot (w * 15) 1000).
Proof.
  intros HB Hsize Hw Hh Hcol Hclean Hlen Hratio.
  destruct (clean_colors_truthy _ _ _ Hclean) as [_ Hlen5].
  assert (Hne : palette <> [])
    by (destruct palette; [simpl in Hlen5; lia | discriminate]).
  rewrite (get_palette_layout B im default_border wand colors palette
             Hcol Hclean).
  pose proof (compose_layout_size B im default_border w h palette
                HB Hsize Hw Hh Hne) as H.
  cbv zeta in H; rewrite Hratio in H; cbn [negb] in H.
  rewrite default_border_int in H.
  pose proof (quot_nonneg_bounds (w * 15) 1000 ltac:(lia) ltac:(lia))
    as [Hb Hbb].
  destruct (default_last_segment w (Z.quot (w * 15) 1000) (length palette))
    as [Hd Hl]; try lia.
  apply H; lia.
Qed.




(** What the two handlers of [get_palette] do catch: any exception of the
    extraction, and a [TypeError] raised while the strip is built, the canvas
    expanded or the strip pasted. *)
Lemma get_palette_extraction_failure (B : Backend) (im : Image B)
  (border : Q) (wand : bool) (e : exn) :
  color_func B wand im = Raise e -> get_palette B im border wand = Ok im.
Proof. intros H; unfold get_palette; rewrite H; reflexivity. Qed.

Lemma except_TypeError_caught {A : Type} (body handler : result A) :
  body = Raise TypeError -> except_TypeError body handler = handler.
Proof. intros ->; reflexivity. Qed.

Lemma except_TypeError_passes {A : Type} (body handler : result A) (e : exn) :
  body = Raise e -> e <> TypeError ->
  except_TypeError body handler = Raise e.
Proof. intros -> He; destruct e; try reflexivity; congruence. Qed.

(** C1 (failing input): when at least 6 colours are extracted and the
    wide-image adjustment makes the border negative, [Image.new] refuses the
    negative height of the strip with a [ValueError].  The call stands before
    the [try], whose handler catches [TypeError] only, so [get_palette] raises
    the [ValueError] instead of returning the image.  A 100 by 40 image is
    such an input: its border is [1 - 10 = -9]. *)
Theorem get_palette_negative_border (B : Backend) (im : Image B) (b : Q)
  (wand : bool) (w h border : Z) (colors : list Color) :
  pillow_sizes B ->
  size B im = (w, h) ->
  color_func B wand im = Ok colors ->
  (6 <= length colors)%nat ->
  layout_border w h b = Ok border ->
  border < 0 ->
  get_palette B im b wand = Raise ValueError.
Proof.
  intros HB Hsize Hcol Hlen Hborder Hneg.
  rewrite (get_palette_layout B im b wand colors _ Hcol
             (clean_colors_long colors default_tolerancy Hlen)).
  unfold compose_layout; rewrite Hsize, Hborder; cbn [bind].
  rewrite (new_negative B HB) by lia.
  reflexivity.
Qed.

Lemma get_palette_negative_border_witness :
  Raster.size Sample.wide = (100, 40) /\
  color_func Sample.backend true Sample.wide = Ok ten_colors /\
  layout_border 100 40 default_border = Ok (-9) /\
  get_palette Sample.backend Sample.wide default_border true
    = Raise ValueError.
Proof.
  assert (Hcol : color_func Sample.backend true Sample.wide = Ok ten_colors)
    by (vm_compute; reflexivity).
  assert (Hborder : layout_border 100 40 default_border = Ok (-9))
    by reflexivity.
  split; [reflexivity|]; split; [exact Hcol|]; split; [exact Hborder|].
  apply (get_palette_negative_border Sample.backend Sample.wide
           default_border true 100 40 (-9) ten_colors).
  - apply raster_pillow_sizes.
  - reflexivity.
  - exact Hcol.
  - simpl; lia.
  - exact Hborder.
  - lia.
Defined.

(** ** More on clean_colors *)

Lemma clean_colors_cases (colors : list Color) (t : Z) :
  (6 <= length colors)%nat ->
  ((forall j, (5 <= j < length colors)%nat ->
      bright_channels (nth j colors white) <= t) /\
   clean_colors colors t = Some colors)
  \/
  (exists i, (5 <= i < length colors)%nat /\
      t < bright_channels (nth i colors white) /\
      (forall j, (5 <= j < i)%nat ->
         bright_channels (nth j colors white) <= t) /\
      clean_colors colors t = Some (firstn i colors)).
Proof.
  intros Hlen; rewrite clean_colors_long by exact Hlen.
  destruct (clean_loop_cases colors t (length colors - 5) 5)
    as [[Hall Heq] | (i & Hi & Hb & Hbefore & Heq)].
  - left; split; [|rewrite Heq; reflexivity].
    intros j Hj; apply Hall; lia.
  - right; exists i; split; [lia|]; split; [exact Hb|]; split;
      [exact Hbefore | rewrite Heq; reflexivity].
Qed.

Lemma clean_colors_some_long (colors kept : list Color) (t : Z) :
  clean_colors colors t = Some kept -> (6 <= length colors)%nat.
Proof. intros H; apply clean_colors_some_prefix in H; tauto. Qed.

(** A colour has at most three channels: a tolerance of 3 or more never
    cuts. *)
Theorem clean_colors_high_tolerance (colors : list Color) (t : Z) :
  (6 <= length colors)%nat -> 3 <= t ->
  clean_colors colors t = Some colors.
Proof.
  intros Hlen Ht.
  destruct (clean_colors_cases colors t Hlen)
    as [[_ Heq] | (i & _ & Hb & _)]; [exact Heq|].
  pose proof (bright_channels_bounds (nth i colors white)); lia.
Qed.

Lemma clean_colors_high_tolerance_witness :
  (6 <= length ten_colors)%nat /\ 3 <= 3 /\
  clean_colors ten_colors 3 = Some ten_colors.
Proof.
  split; [simpl; lia|]; split; [lia|].
  apply (clean_colors_high_tolerance ten_colors 3); [simpl; lia | lia].
Defined.

(** A negative tolerance cuts at index 5 whatever the colours are. *)
Theorem clean_colors_negative_tolerance (colors : list Color) (t : Z) :
  (6 <= length colors)%nat -> t < 0 ->
  clean_colors colors t = Some (firstn 5 colors).
Proof.
  intros Hlen Ht.
  destruct (clean_colors_cases colors t Hlen)
    as [[Hall _] | (i & Hi & _ & Hbefore & Heq)].
  - specialize (Hall 5%nat ltac:(lia)).
    pose proof (bright_channels_bounds (nth 5 colors white)); lia.
  - destruct (Nat.eq_dec i 5) as [->|Hne]; [exact Heq|].
    specialize (Hbefore 5%nat ltac:(lia)).
    pose proof (bright_channels_bounds (nth 5 colors white)); lia.
Qed.

Lemma clean_colors_negative_tolerance_witness :
  (6 <= length ten_colors)%nat /\ -1 < 0 /\
  clean_colors ten_colors (-1) = Some (firstn 5 ten_colors).
Proof.
  split; [simpl; lia|]; split; [lia|].
  apply (clean_colors_negative_tolerance ten_colors (-1)); [simpl; lia | lia].
Defined.

Lemma clean_kept_bright (colors kept : list Color) (t : Z) :
  clean_colors colors t = Some kept ->
  forall i, (5 <= i < length kept)%nat ->
    bright_channels (nth i kept white) <= t.
Proof.
  intros H; pose proof (clean_colors_some_long _ _ _ H) as Hlen.
  destruct (clean_colors_cases colors t Hlen)
    as [[Hall Heq] | (i & Hi & Hb & Hbefore & Heq)];
    rewrite Heq in H; injection H as <-.
  - exact Hall.
  - assert (Hl : length (firstn i colors) = i)
      by (rewrite length_firstn; lia).
    rewrite Hl; intros j Hj; rewrite nth_firstn.
    destruct (Nat.ltb_spec j i); [apply Hbefore; lia | lia].
Qed.

Lemma clean_cut_bright (colors kept : list Color) (t : Z) :
  clean_colors colors t = Some kept ->
  (length kept < length colors)%nat ->
  t < bright_channels (nth (length kept) colors white).
Proof.
  intros H; pose proof (clean_colors_some_long _ _ _ H) as Hlen.
  destruct (clean_colors_cases colors t Hlen)
    as [[Hall Heq] | (i & Hi & Hb & Hbefore & Heq)];
    rewrite Heq in H; injection H as <-.
  - lia.
  - assert (Hl : length (firstn i colors) = i)
      by (rewrite length_firstn; lia).
    rewrite Hl; intros _; exact Hb.
Qed.

(** What is kept from index 5 on is within the tolerance, and when something
    is dropped the first dropped colour is above it. *)
Theorem clean_colors_kept_within_tolerance (colors kept : list Color)
  (t : Z) :
  clean_colors colors t = Some kept ->
  (forall i, (5 <= i < length kept)%nat ->
     bright_channels (nth i kept white) <= t) /\
  ((length kept < length colors)%nat ->
   t < bright_channels (nth (length kept) colors white)).
Proof.
  intros H; split.
  - intros i Hi.
    exact (clean_kept_bright colors kept t H i Hi).
  - intros Hcut.
    exact (clean_cut_bright colors kept t H Hcut).
Qed.

Lemma clean_colors_kept_within_tolerance_witness :
  let colors := [(10, 20, 30); (250, 250, 250); (40, 50, 60); (70, 80, 90);
                 (1, 2, 3); (200, 200, 100); (161, 161, 161); (5, 5, 5)] in
  clean_colors colors default_tolerancy = Some (firstn 6 colors) /\
  default_tolerancy < bright_channels (nth 6 colors white).
Proof.
  intros colors.
  assert (H : clean_colors colors default_tolerancy = Some (firstn 6 colors))
    by (vm_compute; reflexivity).
  split; [exact H|].
  apply (proj2 (clean_colors_kept_within_tolerance colors (firstn 6 colors)
                  default_tolerancy H)).
  simpl; lia.
Defined.

Lemma bright_all_channels (c : Color) :
  2 < bright_channels c <-> too_white c.
Proof.
  destruct c as [[r g] b]; unfold bright_channels, too_white; simpl.
  destruct (Z.ltb_spec 160 r), (Z.ltb_spec 160 g), (Z.ltb_spec 160 b);
    simpl; lia.
Qed.

(** With the default tolerance the list is cut only at a colour whose three
    channels all exceed 160, and it is returned whole exactly when no colour
    from index 5 on is of that kind. *)
Theorem clean_colors_default_too_white (colors : list Color) :
  (6 <= length colors)%nat ->
  (forall kept, clean_colors colors default_tolerancy = Some kept ->
     (length kept < length colors)%nat ->
     too_white (nth (length kept) colors white)) /\
  (clean_colors colors default_tolerancy = Some colors <->
   forall i, (5 <= i < length colors)%nat ->
     ~ too_white (nth i colors white)).
Proof.
  intros Hlen; split.
  - intros kept H Hcut.
    apply bright_all_channels.
    exact (clean_cut_bright _ _ _ H Hcut).
  - destruct (clean_colors_cases colors default_tolerancy Hlen)
      as [[Hall Heq] | (i & Hi & Hb & Hbefore & Heq)]; rewrite Heq.
    + split; [|reflexivity].
      intros _ i Hi Hw; apply bright_all_channels in Hw.
      specialize (Hall i Hi); unfold default_tolerancy in Hall; lia.
    + split.
      * intros [= Hfull].
        assert (Hl : length (firstn i colors) = i)
          by (rewrite length_firstn; lia).
        rewrite Hfull in Hl; lia.
      * intros Hnone; exfalso; apply (Hnone i Hi).
        apply bright_all_channels; exact Hb.
Qed.

Lemma clean_colors_default_too_white_witness :
  (6 <= length ten_colors)%nat /\
  clean_colors ten_colors default_tolerancy = Some ten_colors.
Proof.
  assert (Hlen : (6 <= length ten_colors)%nat) by (simpl; lia).
  split; [exact Hlen|].
  apply (proj2 (clean_colors_default_too_white ten_colors Hlen)).
  intros i Hi.
  do 5 (destruct i as [|i]; [lia|]).
  do 5 (destruct i as [|i]; [simpl; lia|]).
  simpl in Hi; lia.
Defined.

(** Raising the tolerance never shortens the result: what a lower tolerance
    keeps is a prefix of what a higher one keeps. *)
Theorem clean_colors_monotone (colors kept : list Color) (t t' : Z) :
  clean_colors colors t = Some kept -> t <= t' ->
  exists kept', clean_colors colors t' = Some kept' /\
                kept = firstn (length kept) kept'.
Proof.
  intros H Ht; pose proof (clean_colors_some_long _ _ _ H) as Hlen.
  destruct (clean_colors_cases colors t Hlen)
    as [[Hall Heq] | (i & Hi & Hb & Hbefore & Heq)];
    rewrite Heq in H; injection H as <-.
  - exists colors; split; [|rewrite firstn_all; reflexivity].
    destruct (clean_colors_cases colors t' Hlen)
      as [[_ Heq'] | (i' & Hi' & Hb' & _)]; [exact Heq'|].
    specialize (Hall i' Hi'); lia.
  - assert (Hl : length (firstn i colors) = i)
      by (rewrite length_firstn; lia).
    rewrite Hl.
    destruct (clean_colors_cases colors t' Hlen)
      as [[_ Heq'] | (i' & Hi' & Hb' & _ & Heq')]; rewrite Heq'.
    + exists colors; split; reflexivity.
    + exists (firstn i' colors); split; [reflexivity|].
      assert (i <= i')%nat.
      { destruct (Nat.le_gt_cases i i') as [Hle|Hgt]; [exact Hle|].
        specialize (Hbefore i' ltac:(lia)); lia. }
      rewrite firstn_firstn; f_equal; lia.
Qed.

Lemma clean_colors_monotone_witness :
  let colors := [(10, 20, 30); (250, 250, 250); (40, 50, 60); (70, 80, 90);
                 (1, 2, 3); (200, 200, 100); (161, 161, 161); (5, 5, 5)] in
  clean_colors colors 1 = Some (firstn 5 colors) /\ 1 <= 2 /\
  exists kept', clean_colors colors 2 = Some kept' /\
                firstn 5 colors = firstn (length (firstn 5 colors)) kept'.
Proof.
  intros colors.
  assert (H : clean_colors colors 1 = Some (firstn 5 colors))
    by (vm_compute; reflexivity).
  split; [exact H|]; split; [lia|].
  exact (clean_colors_monotone colors (firstn 5 colors) 1 2 H ltac:(lia)).
Defined.

(** Cleaning a cleaned list changes nothing, except that a result of exactly
    5 colours is too short to be cleaned again. *)
Theorem clean_colors_again (colors kept : list Color) (t : Z) :
  clean_colors colors t = Some kept ->
  clean_colors kept t = if (length kept <? 6)%nat then None else Some kept.
Proof.
  intros H.
  destruct (Nat.ltb_spec (length kept) 6) as [Hshort|Hlong].
  - apply clean_colors_short; exact Hshort.
  - destruct (clean_colors_cases kept t Hlong)
      as [[_ Heq] | (i & Hi & Hb & _)]; [exact Heq|].
    pose proof (clean_kept_bright _ _ _ H i Hi).
    lia.
Qed.

Lemma clean_colors_again_witness :
  let colors := [(10, 20, 30); (250, 250, 250); (40, 50, 60); (70, 80, 90);
                 (1, 2, 3); (200, 200, 100); (161, 161, 161); (5, 5, 5)] in
  clean_colors colors default_tolerancy = Some (firstn 6 colors) /\
  clean_colors (firstn 6 colors) default_tolerancy = Some (firstn 6 colors).
Proof.
  intros colors.
  assert (H : clean_colors colors default_tolerancy = Some (firstn 6 colors))
    by (vm_compute; reflexivity).
  split; [exact H|].
  exact (clean_colors_again colors (firstn 6 colors) default_tolerancy H).
Defined.

(** ** More on get_most_diff *)

Lemma far_reds_bounds (saved_colors : list Color) (c : Color) :
  0 <= far_reds saved_colors c <= Z.of_nat (length saved_colors).
Proof.
  unfold far_reds.
  pose proof (filter_length_le
                (fun s => 10 <? Z.abs (red c - red s)) saved_colors).
  lia.
Qed.

Lemma far_reds_all (saved_colors : list Color) (c : Color) :
  far_reds saved_colors c = Z.of_nat (length saved_colors) <->
  forall s, In s saved_colors -> 10 < Z.abs (red c - red s).
Proof.
  unfold far_reds.
  induction saved_colors as [|s l IH]; simpl.
  - split; [intros _ s [] | reflexivity].
  - pose proof (filter_length_le (fun s => 10 <? Z.abs (red c - red s)) l).
    destruct (Z.ltb_spec 10 (Z.abs (red c - red s))) as [Hfar|Hnear]; simpl.
    + split.
      * intros Heq s' [<-|Hin]; [exact Hfar|].
        apply IH; [lia | exact Hin].
      * intros Hall.
        assert (Hl : Z.of_nat (length (filter
                       (fun s => 10 <? Z.abs (red c - red s)) l))
                     = Z.of_nat (length l))
          by (apply IH; intros s' Hs'; apply Hall; right; exact Hs').
        lia.
    + split; [lia|].
      intros Hall; specialize (Hall s (or_introl eq_refl)); lia.
Qed.

Lemma far_reds_none (saved_colors : list Color) (c : Color) :
  (forall s, In s saved_colors -> Z.abs (red c - red s) <= 10) ->
  far_reds saved_colors c = 0.
Proof.
  intros Hnear; unfold far_reds.
  induction saved_colors as [|s l IH]; [reflexivity|]; simpl.
  destruct (Z.ltb_spec 10 (Z.abs (red c - red s))) as [Hfar|_].
  - specialize (Hnear s (or_introl eq_refl)); lia.
  - apply IH; intros s' Hs'; apply Hnear; right; exact Hs'.
Qed.

(** The returned dict: a candidate with its hit count, not beaten by any
    candidate and strictly ahead of those listed before it. *)
Lemma get_most_diff_head (saved_colors new_colors : list Color) :
  new_colors <> [] ->
  exists i c,
    nth_error new_colors i = Some c /\
    get_most_diff saved_colors new_colors =
      Ok {| color := c; hits := far_reds saved_colors c |} /\
    (forall c', In c' new_colors ->
       far_reds saved_colors c' <= far_reds saved_colors c) /\
    (forall j c', (j < i)%nat -> nth_error new_colors j = Some c' ->
       far_reds saved_colors c' < far_reds saved_colors c).
Proof.
  intros Hne.
  destruct (sorted_hits_desc_head (score_all saved_colors new_colors))
    as (i & best & Hhd & Hnth & Hmax & Hbefore).
  { destruct new_colors; [congruence | discriminate]. }
  unfold score_all in Hnth.
  rewrite nth_error_map in Hnth.
  destruct (nth_error new_colors i) as [c|] eqn:Hc; [|discriminate].
  injection Hnth as <-.
  rewrite count_hits_far_reds in *.
  exists i, c.
  split; [exact Hc|]; split; [|split].
  - unfold get_most_diff.
    destruct (sorted_hits_desc (score_all saved_colors new_colors));
      [discriminate|].
    injection Hhd as ->; reflexivity.
  - intros c' Hin; apply In_nth_error in Hin; destruct Hin as [j Hj].
    specialize (Hmax j {| color := c'; hits := count_hits saved_colors c' |}).
    rewrite count_hits_far_reds in Hmax; apply Hmax.
    unfold score_all; rewrite nth_error_map, Hj; simpl.
    rewrite count_hits_far_reds; reflexivity.
  - intros j c' Hlt Hj.
    specialize (Hbefore j
      {| color := c'; hits := count_hits saved_colors c' |} Hlt).
    rewrite count_hits_far_reds in Hbefore; apply Hbefore.
    unfold score_all; rewrite nth_error_map, Hj; simpl.
    rewrite count_hits_far_reds; reflexivity.
Qed.

(** When no candidate is more than 10 away in red from any accepted colour,
    in particular when nothing is accepted yet, every candidate scores 0 and
    the first one is returned, whatever the green and blue channels are. *)
Theorem get_most_diff_all_close (saved_colors : list Color)
  (first : Color) (others : list Color) :
  (forall c s, In c (first :: others) -> In s saved_colors ->
     Z.abs (red c - red s) <= 10) ->
  get_most_diff saved_colors (first :: others) =
    Ok {| color := first; hits := 0 |}.
Proof.
  intros Hclose.
  assert (Hzero : forall c, In c (first :: others) ->
                    far_reds saved_colors c = 0).
  { intros c Hc; apply far_reds_none; intros s Hs; apply Hclose; assumption. }
  destruct (get_most_diff_head saved_colors (first :: others))
    as (i & c & Hc & Hget & _ & Hbefore); [discriminate|].
  destruct i as [|i].
  - injection Hc as <-.
    rewrite Hget, Hzero by (left; reflexivity); reflexivity.
  - specialize (Hbefore 0%nat first ltac:(lia) eq_refl).
    rewrite Hzero in Hbefore by (left; reflexivity).
    rewrite Hzero in Hbefore by (eapply nth_error_In; exact Hc).
    lia.
Qed.

Lemma get_most_diff_all_close_witness :
  get_most_diff [(100, 0, 0); (105, 255, 255)]
                [(95, 9, 200); (110, 200, 9); (100, 0, 0)]
  = Ok {| color := (95, 9, 200); hits := 0 |}.
Proof.
  apply (get_most_diff_all_close [(100, 0, 0); (105, 255, 255)]
           (95, 9, 200) [(110, 200, 9); (100, 0, 0)]).
  intros c s Hc Hs; simpl in Hc, Hs.
  destruct Hc as [<-|[<-|[<-|[]]]]; destruct Hs as [<-|[<-|[]]];
    simpl; lia.
Defined.

(** When some candidate is more than 10 away in red from every accepted
    colour, so is the returned one. *)
Theorem get_most_diff_fully_distinct (saved_colors new_colors : list Color)
  (c : Color) :
  In c new_colors ->
  (forall s, In s saved_colors -> 10 < Z.abs (red c - red s)) ->
  exists best,
    get_most_diff saved_colors new_colors = Ok best /\
    In (color best) new_colors /\
    hits best = Z.of_nat (length saved_colors) /\
    forall s, In s saved_colors -> 10 < Z.abs (red (color best) - red s).
Proof.
  intros Hin Hfar.
  destruct (get_most_diff_head saved_colors new_colors)
    as (i & c' & Hc' & Hget & Hmax & _).
  { intros ->; exact Hin. }
  apply far_reds_all in Hfar.
  pose proof (Hmax c Hin) as Hle.
  pose proof (far_reds_bounds saved_colors c') as Hb.
  assert (Hall : far_reds saved_colors c' = Z.of_nat (length saved_colors))
    by lia.
  eexists; split; [exact Hget|]; cbn [color hits].
  split; [eapply nth_error_In; exact Hc'|]; split; [exact Hall|].
  apply far_reds_all; exact Hall.
Qed.

Lemma get_most_diff_fully_distinct_witness :
  let saved := [(0, 0, 0); (50, 0, 0)] in
  let new := [(5, 0, 0); (100, 1, 1); (200, 2, 2); (45, 0, 0)] in
  In (200, 2, 2) new /\
  exists best, get_most_diff saved new = Ok best /\
               hits best = Z.of_nat (length saved).
Proof.
  intros saved new.
  assert (Hin : In (200, 2, 2) new) by (simpl; auto).
  split; [exact Hin|].
  destruct (get_most_diff_fully_distinct saved new (200, 2, 2) Hin)
    as (best & Hget & _ & Hhits & _).
  - intros s Hs; simpl in Hs; destruct Hs as [<-|[<-|[]]]; simpl; lia.
  - exists best; split; assumption.
Defined.

(** ** More on get_colors_alt *)

(** An image narrower than 10 pixels has [slices = 0]: all ten boxes are the
    same empty box. *)
Theorem slices_empty_when_narrow (width height : Z) (i : nat) :
  0 <= width < 10 -> slice_box width height i = (0, 0, 0, height).
Proof.
  intros Hw; rewrite slice_box_eq.
  rewrite Z.quot_small by lia.
  repeat f_equal; lia.
Qed.

Lemma slices_empty_when_narrow_witness :
  0 <= 9 < 10 /\ slice_box 9 40 7 = (0, 0, 0, 40).
Proof.
  split; [lia|].
  apply (slices_empty_when_narrow 9 40 7); lia.
Defined.

Lemma get_most_diff_In (saved_colors new_colors : list Color)
  (best : Scored) :
  get_most_diff saved_colors new_colors = Ok best ->
  In (color best) new_colors.
Proof.
  intros H.
  destruct new_colors as [|c l]; [discriminate|].
  destruct (get_most_diff_head saved_colors (c :: l))
    as (i & c' & Hc' & Hget & _); [discriminate|].
  rewrite Hget in H; injection H as <-.
  eapply nth_error_In; exact Hc'.
Qed.

Lemma snoc_prefix {A : Type} (l saved : list A) (x d : A) :
  firstn (S (length saved)) l = saved ++ [x] ->
  firstn (length saved) l = saved /\ nth (length saved) l d = x.
Proof.
  intros H; split.
  - assert (Hf : firstn (length saved) (firstn (S (length saved)) l)
                 = firstn (length saved) l)
      by (rewrite firstn_firstn; f_equal; lia).
    rewrite <- Hf, H, firstn_app, firstn_all, Nat.sub_diag; simpl.
    apply app_nil_r.
  - assert (Hn : nth (length saved) (firstn (S (length saved)) l) d
                 = nth (length saved) l d).
    { rewrite nth_firstn.
      destruct (Nat.ltb_spec (length saved) (S (length saved)));
        [reflexivity | lia]. }
    rewrite <- Hn, H; apply nth_middle.
Qed.

Lemma slice_loop_provenance (B : Backend) (im : Image B) (width height : Z) :
  size B im = (width, height) ->
  forall n saved_colors colors,
    for_each (slice_step B im) (range (length saved_colors) n) saved_colors
      = Ok colors ->
    firstn (length saved_colors) colors = saved_colors /\
    forall i, (length saved_colors <= i < length saved_colors + n)%nat ->
      exists cropped,
        Image_crop B im (slice_box width height i) = Ok cropped /\
        (i = 0%nat -> thief_get_color B cropped = Ok (nth 0 colors white)) /\
        ((0 < i)%nat ->
         exists cs best,
           thief_get_palette B cropped 100 = Ok cs /\
           get_most_diff (firstn i colors) cs = Ok best /\
           color best = nth i colors white).
Proof.
  intros Hsize; induction n as [|n IH]; intros saved_colors colors;
    unfold range in *; cbn [seq for_each].
  - intros [= <-]; split; [apply firstn_all | intros i Hi; lia].
  - destruct (slice_step B im saved_colors (length saved_colors))
      as [saved'|e] eqn:Hstep; [|discriminate]; cbn [bind].
    intros Hloop.
    assert (Hsnoc : exists x, saved' = saved_colors ++ [x] /\
      exists cropped,
        Image_crop B im (slice_box width height (length saved_colors))
          = Ok cropped /\
        (length saved_colors = 0%nat -> thief_get_color B cropped = Ok x) /\
        ((0 < length saved_colors)%nat ->
         exists cs best,
           thief_get_palette B cropped 100 = Ok cs /\
           get_most_diff saved_colors cs = Ok best /\ color best = x)).
    { unfold slice_step in Hstep; rewrite Hsize in Hstep.
      destruct (Image_crop B im
                  (slice_box width height (length saved_colors)))
        as [cropped|e] eqn:Hcrop; [|discriminate]; cbn [bind] in Hstep.
      destruct (Nat.eqb_spec (length saved_colors) 0) as [Hz|Hnz].
      - destruct (thief_get_color B cropped) as [p|e] eqn:Hp;
          [|discriminate]; cbn [bind] in Hstep.
        injection Hstep as <-.
        exists p; split; [reflexivity|].
        exists cropped; split; [reflexivity|].
        split; [intros _; exact Hp | lia].
      - destruct (thief_get_palette B cropped 100) as [cs|e] eqn:Hcs;
          [|discriminate]; cbn [bind] in Hstep.
        destruct (get_most_diff saved_colors cs) as [best|e] eqn:Hbest;
          [|discriminate]; cbn [bind] in Hstep.
        injection Hstep as <-.
        exists (color best); split; [reflexivity|].
        exists cropped; split; [reflexivity|].
        split; [lia|].
        intros _; exists cs, best; repeat split; assumption. }
    destruct Hsnoc as (x & -> & cropped & Hcrop & Hfirst & Hlater).
    specialize (IH (saved_colors ++ [x]) colors).
    rewrite length_app in IH; cbn [length] in IH.
    replace (length saved_colors + 1)%nat with (S (length saved_colors))
      in IH by lia.
    destruct (IH Hloop) as [Hpre Hrest].
    destruct (snoc_prefix colors saved_colors x white Hpre) as [Hp Hx].
    split; [exact Hp|].
    intros i Hi.
    destruct (Nat.eq_dec i (length saved_colors)) as [->|Hne].
    + exists cropped; split; [exact Hcrop|]; split.
      * intros Hz; rewrite Hz in *; rewrite Hx; apply Hfirst; reflexivity.
      * intros Hpos; destruct (Hlater Hpos) as (cs & best & Hcs & Hb & Hc).
        exists cs, best; rewrite Hp, Hx; repeat split; assumption.
    + apply Hrest; lia.
Qed.

(** Where each colour of the result comes from: the first is the dominant
    colour of slice 0, and colour [i] is the candidate that [get_most_diff]
    picks from the palette of slice [i] against the colours before it. *)
Theorem get_colors_alt_provenance (B : Backend) (im : Image B)
  (width height : Z) (colors : list Color) :
  size B im = (width, height) ->
  get_colors_alt B im = Ok colors ->
  forall i, (i < 10)%nat ->
    exists cropped,
      Image_crop B im (slice_box width height i) = Ok cropped /\
      (i = 0%nat -> thief_get_color B cropped = Ok (nth 0 colors white)) /\
      ((0 < i)%nat ->
       exists cs best,
         thief_get_palette B cropped 100 = Ok cs /\
         get_most_diff (firstn i colors) cs = Ok best /\
         color best = nth i colors white /\
         In (nth i colors white) cs).
Proof.
  intros Hsize H i Hi; unfold get_colors_alt in H.
  destruct (slice_loop_provenance B im width height Hsize 10 [] colors H)
    as [_ Hall].
  destruct (Hall i ltac:(simpl; lia)) as (cropped & Hcrop & Hfirst & Hlater).
  exists cropped; split; [exact Hcrop|]; split; [exact Hfirst|].
  intros Hpos; destruct (Hlater Hpos) as (cs & best & Hcs & Hb & Hc).
  exists cs, best; repeat split; try assumption.
  rewrite <- Hc; eapply get_most_diff_In; exact Hb.
Qed.

Lemma get_colors_alt_provenance_witness :
  Raster.size Sample.ribbon = (30, 4) /\
  get_colors_alt Sample.backend Sample.ribbon = Ok ten_colors /\
  exists cropped,
    Raster.crop Sample.ribbon (slice_box 30 4 3) = Ok cropped /\
    exists cs, Sample.get_palette cropped 100 = Ok cs /\
               In (nth 3 ten_colors white) cs.
Proof.
  assert (H : get_colors_alt Sample.backend Sample.ribbon = Ok ten_colors)
    by (vm_compute; reflexivity).
  split; [reflexivity|]; split; [exact H|].
  destruct (get_colors_alt_provenance Sample.backend Sample.ribbon 30 4
              ten_colors eq_refl H 3%nat ltac:(lia))
    as (cropped & Hcrop & _ & Hlater).
  destruct (Hlater ltac:(lia)) as (cs & best & Hcs & _ & _ & Hin).
  exists cropped; split; [exact Hcrop|].
  exists cs; split; assumption.
Defined.

(** What becomes of an exception of the extraction. *)
Lemma extraction_failure_paths (B : Backend) (im : Image B) (border : Q)
  (wand : bool) (e : exn) :
  color_func B wand im = Raise e ->
  get_palette B im border wand = Ok im /\
  get_palette_legacy B im wand = Raise e.
Proof.
  intros H; split.
  - unfold get_palette; rewrite H; reflexivity.
  - unfold get_palette_legacy.
    destruct (size B im) as [width height]; rewrite H; reflexivity.
Qed.

(** When ColorThief finds no candidate colour in slice 1, [get_most_diff]
    indexes an empty list: the alternative extraction raises [IndexError].
    [get_palette] swallows it and returns the image; [get_palette_legacy]
    lets it through. *)
Theorem no_candidates_paths (B : Backend) (im : Image B) (border : Q)
  (width height : Z) (slice0 slice1 : Image B) (principal : Color) :
  size B im = (width, height) ->
  Image_crop B im (slice_box width height 0) = Ok slice0 ->
  thief_get_color B slice0 = Ok principal ->
  Image_crop B im (slice_box width height 1) = Ok slice1 ->
  thief_get_palette B slice1 100 = Ok [] ->
  get_colors_alt B im = Raise IndexError /\
  get_palette B im border false = Ok im /\
  get_palette_legacy B im false = Raise IndexError.
Proof.
  intros Hsize Hc0 Hp Hc1 Hcs.
  assert (H : get_colors_alt B im = Raise IndexError).
  { unfold get_colors_alt, range; cbn [seq for_each].
    unfold slice_step at 1; rewrite Hsize, Hc0; cbn [bind Nat.eqb].
    rewrite Hp; cbn [bind].
    unfold slice_step at 1; rewrite Hsize, Hc1; cbn [bind Nat.eqb].
    rewrite Hcs; reflexivity. }
  split; [exact H|].
  apply extraction_failure_paths; exact H.
Qed.

Lemma no_candidates_paths_witness :
  get_colors_alt mute_backend Sample.ribbon = Raise IndexError /\
  get_palette mute_backend Sample.ribbon default_border false
    = Ok Sample.ribbon.
Proof.
  destruct (no_candidates_paths mute_backend Sample.ribbon
              default_border 30 4
              (Raster.solid 3 4 (10, 10, 10))
              {| Raster.width := 3; Raster.height := 4;
                 Raster.pixels := Raster.grid 3 4 (fun _ _ => (30, 60, 90)) |}
              (1, 2, 3))
    as (H1 & H2 & _); try (vm_compute; reflexivity).
  split; assumption.
Defined.

(** ** Degenerate sizes *)






(** ** The exceptions that leave get_palette *)

Lemma strip_step_builtin (B : Backend) palette w d border st color :
  library_exceptions B ->
  raises_builtin (strip_step B palette w d border st color).
Proof.
  intros (Hnew & Hpaste & _ & _); unfold strip_step.
  destruct st as [bg next_].
  destruct (color =? 0)%nat; [|destruct (color =? length palette - 1)%nat];
    (apply raises_builtin_bind; [apply Hnew | intros img];
     apply raises_builtin_bind; [apply Hpaste | intros bg']; exact I).
Qed.

Lemma layout_border_raises (w h : Z) (b : Q) (e : exn) :
  layout_border w h b = Raise e -> e = ZeroDivisionError.
Proof.
  unfold layout_border, truediv.
  destruct (Qeq_bool (inject_Z h) 0); cbn [bind].
  - intros [= <-]; reflexivity.
  - destruct (negb _); discriminate.
Qed.

Lemma except_TypeError_never {A : Type} (body : result A) (a : A) :
  except_TypeError body (Ok a) <> Raise TypeError.
Proof. destruct body as [x|[]]; discriminate. Qed.

(** Whatever the extraction does, [get_palette] never raises kinobot's
    [NotEnoughColors], and it raises a [TypeError] only if the [Image.new] of
    the white strip does: every later [TypeError] is caught. *)
Theorem get_palette_escaping_exceptions (B : Backend) (im : Image B)
  (border : Q) (wand : bool) :
  library_exceptions B ->
  (forall n, get_palette B im border wand <> Raise (NotEnoughColors n)) /\
  ((forall sz, Image_new B sz white <> Raise TypeError) ->
   get_palette B im border wand <> Raise TypeError).
Proof.
  intros HB; pose proof HB as (Hnew & Hpaste & _ & Hexpand).
  unfold get_palette.
  destruct (color_func B wand im) as [colors|e]; [|split; discriminate].
  destruct (clean_colors colors default_tolerancy) as [palette|];
    cbn [falsy]; [|split; discriminate].
  destruct palette as [|c palette]; [split; discriminate|].
  set (pal := c :: palette).
  unfold compose_layout; destruct (size B im) as [w h].
  split.
  - intros n; apply raises_builtin_not_enough.
    apply raises_builtin_bind.
    { unfold layout_border; apply raises_builtin_bind;
        [apply raises_builtin_truediv|].
      intros ratio; destruct (negb _); exact I. }
    intros bd; apply raises_builtin_bind; [apply Hnew|].
    intros bg; apply raises_builtin_except; [|exact I].
    apply raises_builtin_bind.
    { apply raises_builtin_for_each; intros s i.
      apply strip_step_builtin; exact HB. }
    intros [bg' next_].
    apply raises_builtin_bind; [apply Hexpand|].
    intros bordered; apply raises_builtin_bind; [apply Hpaste|].
    intros out; exact I.
  - intros Hwhite.
    destruct (layout_border w h border) as [bd|e] eqn:Hbd; cbn [bind].
    + destruct (Image_new B (w + bd * 2, bd) white) as [bg|e] eqn:Hbg;
        cbn [bind].
      * apply except_TypeError_never.
      * intros [= ->]; exact (Hwhite _ Hbg).
    + apply layout_border_raises in Hbd; subst e; discriminate.
Qed.

Lemma get_palette_escaping_exceptions_witness :
  library_exceptions Sample.backend /\
  get_palette Sample.backend Sample.wide default_border true
    <> Raise TypeError.
Proof.
  assert (HB : library_exceptions Sample.backend)
    by apply raster_library_exceptions.
  split; [exact HB|].
  apply (proj2 (get_palette_escaping_exceptions Sample.backend Sample.wide
                  default_border true HB)).
  intros [w h]; cbn [Image_new Sample.backend Raster.backend].
  unfold Raster.new; destruct ((w <? 0) || (h <? 0)); discriminate.
Defined.

(** ** The default border in integers *)

Lemma ratio_wide (w h : Z) :
  1 <= h ->
  negb (Qle_bool (inject_Z w / inject_Z h) 2.1) = (21 * h <? 10 * w).
Proof.
  intros Hh; destruct h as [|p|p]; try lia.
  unfold Qle_bool, Qdiv, Qinv, Qmult, inject_Z; cbn [Qnum Qden].
  match goal with
  | |- negb (?a <=? ?b) = (?c <? ?d) =>
      destruct (Z.leb_spec a b); destruct (Z.ltb_spec c d)
  end; cbn [negb]; try reflexivity; lia.
Qed.

Lemma ratio_times_four (w h : Z) :
  1 <= h -> py_int (inject_Z w / inject_Z h * 4) = Z.quot (w * 4) h.
Proof.
  intros Hh; destruct h as [|p|p]; try lia.
  unfold py_int, Qdiv, Qinv, Qmult, inject_Z; cbn [Qnum Qden].
  rewrite Z.mul_1_r, Pos.mul_1_l, Pos.mul_1_r; reflexivity.
Qed.

(** [border] for the default fraction, without fractions: 1.5% of the width
    rounded down, and for an image wider than 21:10 less four times the
    aspect ratio rounded down. *)
Theorem layout_border_default (w h : Z) :
  1 <= h ->
  layout_border w h default_border =
  Ok (if 21 * h <? 10 * w
      then Z.quot (w * 15) 1000 - Z.quot (w * 4) h
      else Z.quot (w * 15) 1000).
Proof.
  intros Hh; rewrite layout_border_eq by lia.
  rewrite ratio_wide by exact Hh.
  rewrite ratio_times_four by exact Hh.
  rewrite default_border_int; reflexivity.
Qed.

Lemma layout_border_default_witness :
  1 <= 800 /\ layout_border 1920 800 default_border = Ok 19.
Proof.
  split; [lia|].
  exact (layout_border_default 1920 800 ltac:(lia)).
Defined.

(** With the default border every image wider than 21:10 and narrower than
    534 pixels from which at least 6 colours are extracted makes
    [get_palette] raise [ValueError]: 1.5% of such a width is below 8, four
    times the ratio is at least 8. *)
Theorem small_wide_images_raise (B : Backend) (im : Image B) (wand : bool)
  (w h : Z) (colors : list Color) :
  pillow_sizes B ->
  size B im = (w, h) -> 1 <= h -> 21 * h < 10 * w -> w < 534 ->
  color_func B wand im = Ok colors ->
  (6 <= length colors)%nat ->
  get_palette B im default_border wand = Raise ValueError.
Proof.
  intros HB Hsize Hh Hwide Hsmall Hcol Hlen.
  rewrite (get_palette_layout B im default_border wand colors _ Hcol
             (clean_colors_long colors default_tolerancy Hlen)).
  unfold compose_layout; rewrite Hsize.
  rewrite layout_border_eq, ratio_wide, ratio_times_four, default_border_int
    by lia.
  destruct (Z.ltb_spec (21 * h) (10 * w)); [|lia]; cbn [bind].
  rewrite (new_negative B HB); [reflexivity|].
  right.
  pose proof (quot_nonneg_bounds (w * 15) 1000 ltac:(lia) ltac:(lia))
    as [_ Hb].
  pose proof (quot_nonneg_bounds (w * 4) h ltac:(lia) ltac:(lia))
    as [_ Hr].
  assert (Hfour : 8 <= Z.quot (w * 4) h).
  { destruct (Z.le_gt_cases 8 (Z.quot (w * 4) h)) as [Hle|Hgt];
      [exact Hle|].
    assert (h * Z.quot (w * 4) h <= h * 7)
      by (apply Z.mul_le_mono_nonneg_l; lia).
    lia. }
  lia.
Qed.

Lemma small_wide_images_raise_witness :
  get_palette ten_backend (Raster.solid 533 253 (1, 2, 3)) default_border
              true
  = Raise ValueError.
Proof.
  apply (small_wide_images_raise ten_backend
           (Raster.solid 533 253 (1, 2, 3)) true 533 253 ten_colors).
  - apply raster_pillow_sizes.
  - reflexivity.
  - lia.
  - lia.
  - lia.
  - reflexivity.
  - simpl; lia.
Defined.

(** With the default border, an image that is not wider than 21:10 and whose
    cleaned palette has at most 10 colours always composes: no size of the
    layout is negative, and the result is the input plus 1.5% of its width,
    rounded down, on the left, on the right and on top. *)
Theorem default_layout_composes (B : Backend) (im : Image B) (wand : bool)
  (w h : Z) (colors palette : list Color) :
  pillow_sizes B -> size B im = (w, h) -> 0 <= w -> 1 <= h ->
  color_func B wand im = Ok colors ->
  clean_colors colors default_tolerancy = Some palette ->
  (length palette <= 10)%nat ->
  10 * w <= 21 * h ->
  exists out, get_palette B im default_border wand = Ok out /\
              size B out = (w + 2 * Z.quot (w * 15) 1000,
                            h + Z.quot (w * 15) 1000).
Proof.
  intros HB Hsize Hw Hh Hcol Hclean Hlen Hratio.
  apply (default_layout_width B im wand w h colors palette); try assumption.
  pose proof (ratio_wide w h Hh) as Hwide.
  destruct (Z.ltb_spec (21 * h) (10 * w)); [lia|].
  destruct (Qle_bool (inject_Z w / inject_Z h) 2.1);
    [reflexivity | discriminate].
Qed.

Lemma default_layout_composes_witness :
  exists out,
    get_palette ten_backend (Raster.solid 1000 500 (1, 2, 3)) default_border
                true = Ok out /\
    size ten_backend out = (1000 + 2 * 15, 500 + 15).
Proof.
  apply (default_layout_composes ten_backend
           (Raster.solid 1000 500 (1, 2, 3)) true 1000 500
           ten_colors ten_colors).
  - apply raster_pillow_sizes.
  - reflexivity.
  - lia.
  - lia.
  - reflexivity.
  - reflexivity.
  - simpl; lia.
  - lia.
Defined.

(** ** The pixels of the composed image *)

Lemma for_each_app {St Ix : Type} (body : St -> Ix -> result St)
  (l1 l2 : list Ix) (s : St) :
  for_each body (l1 ++ l2) s =
  (s' <- for_each body l1 s ;; for_each body l2 s').
Proof.
  revert s; induction l1 as [|i l1 IH]; intros s; cbn [app for_each bind];
    [reflexivity|].
  destruct (body s i) as [s1|e]; cbn [bind]; [apply IH | reflexivity].
Qed.

Lemma nth_map_seq {A : Type} (g : nat -> A) (n k : nat) (d : A) :
  (k < n)%nat -> nth k (map g (seq 0 n)) d = g k.
Proof.
  intros Hk.
  rewrite (nth_indep _ d (g 0%nat)) by (rewrite length_map, length_seq; lia).
  rewrite map_nth, seq_nth by lia; reflexivity.
Qed.

Lemma getpixel_grid (w' h' w h : Z) (f : Z -> Z -> Color) (x y : Z) :
  0 <= x < w -> 0 <= y < h ->
  Raster.getpixel {| Raster.width := w'; Raster.height := h';
                     Raster.pixels := Raster.grid w h f |} x y = f x y.
Proof.
  intros Hx Hy; unfold Raster.getpixel, Raster.grid; cbn [Raster.pixels].
  destruct (Z.ltb_spec x 0); [lia|].
  destruct (Z.ltb_spec y 0); [lia|]; cbn [orb].
  rewrite (nth_map_seq _ (Z.to_nat h) (Z.to_nat y)) by lia.
  rewrite (nth_map_seq _ (Z.to_nat w) (Z.to_nat x)) by lia.
  rewrite !Z2Nat.id by lia; reflexivity.
Qed.

Section RasterPixels.

Variable unique_colors : Raster.image -> result (list Color).
Variable get_color : Raster.image -> result Color.
Variable get_palette_of : Raster.image -> nat -> result (list Color).

Let R : Backend := Raster.backend unique_colors get_color get_palette_of.

(** One rectangle pasted onto the strip. *)
Lemma raster_paste_segment (palette : list Color) (w div_palette border : Z)
  (bg : Raster.image) (i : nat) :
  0 <= border ->
  0 <= segment_width w div_palette (length palette) i ->
  exists bg',
    paste_segment R palette w div_palette border bg i = Ok bg' /\
    Raster.width bg' = Raster.width bg /\
    Raster.height bg' = Raster.height bg /\
    forall x y, 0 <= x < Raster.width bg -> 0 <= y < Raster.height bg ->
      y < border ->
      Raster.getpixel bg' x y =
      if (Z.of_nat i * div_palette <=? x) &&
         (x <? Z.of_nat i * div_palette +
               segment_width w div_palette (length palette) i)
      then nth i palette white
      else Raster.getpixel bg x y.
Proof.
  intros Hb Hsw; unfold paste_segment.
  cbn [Image_new Image_paste R Raster.backend].
  unfold Raster.new.
  destruct (Z.ltb_spec (segment_width w div_palette (length palette) i) 0);
    [lia|].
  destruct (Z.ltb_spec border 0); [lia|]; cbn [orb bind].
  unfold Raster.paste; cbn [Raster.width Raster.height].
  eexists; split; [reflexivity|]; cbn [Raster.width Raster.height].
  split; [reflexivity|]; split; [reflexivity|].
  intros x y Hx Hy Hyb.
  rewrite getpixel_grid by assumption.
  destruct (Z.leb_spec (Z.of_nat i * div_palette) x);
    destruct (Z.ltb_spec x (Z.of_nat i * div_palette +
                segment_width w div_palette (length palette) i));
    cbn [andb]; try reflexivity.
  destruct (Z.leb_spec 0 y); [|lia].
  destruct (Z.ltb_spec y (0 + border)); [|lia]; cbn [andb].
  apply getpixel_grid; lia.
Qed.

(** The rectangles before the last one. *)
Lemma raster_strip_prefix (palette : list Color) (w div_palette border : Z)
  (bg : Raster.image) (k : nat) :
  0 <= border -> 0 <= div_palette ->
  (k <= length palette - 1)%nat ->
  exists bg',
    for_each (paste_segment R palette w div_palette border) (range 0 k) bg
      = Ok bg' /\
    Raster.width bg' = Raster.width bg /\
    Raster.height bg' = Raster.height bg /\
    forall x y, 0 <= x < Raster.width bg -> 0 <= y < Raster.height bg ->
      y < border ->
      Raster.getpixel bg' x y =
      if x <? Z.of_nat k * div_palette
      then nth (Z.to_nat (x / div_palette)) palette white
      else Raster.getpixel bg x y.
Proof.
  intros Hb Hd; induction k as [|k IH]; intros Hk.
  - exists bg; split; [reflexivity|]; split; [reflexivity|];
      split; [reflexivity|].
    intros x y Hx Hy _.
    destruct (Z.ltb_spec x (Z.of_nat 0 * div_palette)); [lia | reflexivity].
  - destruct IH as (bg1 & Hloop & Hw1 & Hh1 & Hpix1); [lia|].
    assert (Hsw : segment_width w div_palette (length palette) k
                  = div_palette).
    { unfold segment_width.
      destruct (Nat.eqb_spec k 0); [reflexivity|].
      destruct (Nat.eqb_spec k (length palette - 1)); [lia | reflexivity]. }
    destruct (raster_paste_segment palette w div_palette border bg1 k Hb)
      as (bg2 & Hpaste & Hw2 & Hh2 & Hpix2); [rewrite Hsw; exact Hd|].
    exists bg2.
    unfold range in *; rewrite seq_S, for_each_app, Hloop; cbn [bind].
    cbn [Nat.add for_each]; rewrite Hpaste; cbn [bind].
    split; [reflexivity|]; split; [congruence|]; split; [congruence|].
    intros x y Hx Hy Hyb.
    rewrite Hpix2, Hsw, Hpix1 by (rewrite ?Hw1, ?Hh1; assumption).
    destruct (Z.leb_spec (Z.of_nat k * div_palette) x);
      destruct (Z.ltb_spec x (Z.of_nat k * div_palette + div_palette));
      destruct (Z.ltb_spec x (Z.of_nat (S k) * div_palette));
      destruct (Z.ltb_spec x (Z.of_nat k * div_palette));
      cbn [andb]; try reflexivity; try lia.
    f_equal.
    assert (Hq : x / div_palette = Z.of_nat k).
    { symmetry.
      apply (Z.div_unique x div_palette (Z.of_nat k)
               (x - Z.of_nat k * div_palette)); [left; lia | lia]. }
    rewrite Hq, Nat2Z.id; reflexivity.
Qed.

(** The finished strip. *)
Lemma raster_strip (palette : list Color) (w div_palette border : Z)
  (bg : Raster.image) :
  0 <= border -> 0 <= div_palette ->
  (2 <= length palette)%nat ->
  0 <= segment_width w div_palette (length palette) (length palette - 1) ->
  (forall x y, 0 <= x < Raster.width bg -> 0 <= y < Raster.height bg ->
     Raster.getpixel bg x y = white) ->
  exists strip,
    for_each (paste_segment R palette w div_palette border)
             (range 0 (length palette)) bg = Ok strip /\
    Raster.width strip = Raster.width bg /\
    Raster.height strip = Raster.height bg /\
    forall x y, 0 <= x < Raster.width bg -> 0 <= y < Raster.height bg ->
      y < border ->
      Raster.getpixel strip x y = strip_color palette w div_palette x.
Proof.
  intros Hb Hd Hlen Hlast Hwhite.
  destruct (raster_strip_prefix palette w div_palette border bg
              (length palette - 1) Hb Hd (Nat.le_refl _))
    as (bg1 & Hloop & Hw1 & Hh1 & Hpix1).
  destruct (raster_paste_segment palette w div_palette border bg1
              (length palette - 1) Hb Hlast)
    as (bg2 & Hpaste & Hw2 & Hh2 & Hpix2).
  exists bg2.
  replace (length palette) with (S (length palette - 1)) at 1 by lia.
  unfold range in *; rewrite seq_S, for_each_app, Hloop; cbn [bind].
  cbn [Nat.add for_each]; rewrite Hpaste; cbn [bind].
  split; [reflexivity|]; split; [congruence|]; split; [congruence|].
  intros x y Hx Hy Hyb.
  rewrite Hpix2, Hpix1, Hwhite by (rewrite ?Hw1, ?Hh1; assumption).
  unfold strip_color; cbv zeta.
  replace (Z.of_nat (length palette - 1)) with (Z.of_nat (length palette) - 1)
    by lia.
  destruct (Z.leb_spec ((Z.of_nat (length palette) - 1) * div_palette) x);
    destruct (Z.ltb_spec x ((Z.of_nat (length palette) - 1) * div_palette));
    try lia; cbn [andb]; reflexivity.
Qed.

Section Composed.

Variable im : Raster.image.
Variable wand : bool.
Variables colors palette : list Color.
Variable border : Z.

Let w := Raster.width im.
Let h := Raster.height im.
Let len := length palette.
Let div_palette := layout_div w border len.
Let last_width := div_palette + last_leftover w div_palette len.

Hypothesis width_nonneg : 0 <= w.
Hypothesis height_pos : 1 <= h.
Hypothesis extracted : color_func R wand im = Ok colors.
Hypothesis cleaned : clean_colors colors default_tolerancy = Some palette.
Hypothesis border_eq : layout_border w h default_border = Ok border.
Hypothesis border_nonneg : 0 <= border.
Hypothesis last_nonneg : 0 <= last_width.

Lemma raster_get_palette_pixels :
  exists out,
    get_palette R im default_border wand = Ok out /\
    Raster.width out = w + 2 * border /\
    Raster.height out = h + border /\
    forall x y, 0 <= x < w + 2 * border -> 0 <= y < h + border ->
      Raster.getpixel out x y =
      composed_pixel im palette border div_palette x y.
Proof.
  destruct (clean_colors_truthy _ _ _ cleaned) as [_ Hlen5].
  fold len in Hlen5.
  assert (Hdiv : 0 <= div_palette).
  { unfold div_palette, layout_div; rewrite py_int_div by lia.
    apply Z.quot_pos; lia. }
  assert (Hlast : segment_width w div_palette len (len - 1) = last_width).
  { unfold segment_width.
    destruct (Nat.eqb_spec (len - 1) 0); [lia|].
    rewrite Nat.eqb_refl; reflexivity. }
  rewrite (get_palette_layout R im default_border wand colors palette
             extracted cleaned).
  unfold compose_layout.
  change (size R im) with (w, h); cbv beta iota.
  rewrite border_eq; cbn [bind].
  change (py_int (inject_Z (w + border * 2)
                  / inject_Z (Z.of_nat (length palette))))
    with div_palette.
  fold len; set (new_w := w + border * 2).
  cbn [Image_new R Raster.backend]; unfold Raster.new at 1.
  destruct (Z.ltb_spec new_w 0); [unfold new_w in *; lia|].
  destruct (Z.ltb_spec border 0); [lia|]; cbn [orb bind].
  set (bg := {| Raster.width := new_w; Raster.height := border;
                Raster.pixels := Raster.grid new_w border
                                   (fun _ _ => white) |}).
  pose proof (strip_loop_from R palette w div_palette border len 0%nat bg)
    as Hloop.
  change (Z.of_nat 0 * div_palette) with 0 in Hloop; rewrite Hloop.
  destruct (raster_strip palette w div_palette border bg)
    as (strip & Hstrip & Hsw & Hsh & Hspix); try assumption.
  { fold len; lia. }
  { fold len; rewrite Hlast; exact last_nonneg. }
  { intros x y Hx Hy; apply getpixel_grid; assumption. }
  change (length palette) with len in Hstrip; rewrite Hstrip.
  cbn [bind].
  cbn [ImageOps_expand Image_paste R Raster.backend].
  unfold Raster.expand, Raster.new; fold w; fold h.
  destruct (Z.ltb_spec (border + w + border) 0); [lia|].
  destruct (Z.ltb_spec (border + h + 0) 0); [lia|]; cbn [orb bind].
  unfold Raster.paste at 2; cbn [Raster.width Raster.height bind].
  unfold Raster.paste; cbn [Raster.width Raster.height except_TypeError].
  eexists; split; [reflexivity|]; cbn [Raster.width Raster.height].
  split; [lia|]; split; [lia|].
  intros x y Hx Hy.
  rewrite getpixel_grid by lia.
  rewrite Hsw, Hsh; cbn [Raster.width Raster.height bg].
  unfold composed_pixel; fold w; fold h.
  destruct (Z.leb_spec h y) as [Hrow|Hrow].
  - destruct (Z.leb_spec 0 x); [|lia].
    destruct (Z.ltb_spec x (0 + new_w)); [|unfold new_w in *; lia].
    destruct (Z.ltb_spec y (h + border)); [|lia]; cbn [andb].
    rewrite Z.sub_0_r, Hspix; [fold len; reflexivity | | | ];
      cbn [Raster.width Raster.height bg]; unfold new_w in *; lia.
  - rewrite andb_false_r; cbn [andb].
    rewrite getpixel_grid by lia.
    destruct (Z.ltb_spec y (border + h)); [|lia].
    rewrite andb_true_r.
    destruct ((border <=? x) && (x <? border + w) && (border <=? y));
      [reflexivity|].
    apply getpixel_grid; lia.
Qed.

(** With the default border fraction: the input image sits in the composed
    image shifted by the border, without its bottom [border] rows; to its
    left, to its right and above it the canvas has the first palette
    colour. *)
Theorem composed_image_part :
  exists out,
    get_palette R im default_border wand = Ok out /\
    (forall x y, 0 <= x < w -> 0 <= y < h - border ->
       Raster.getpixel out (x + border) (y + border)
       = Raster.getpixel im x y) /\
    (forall x y, 0 <= x < w + 2 * border -> 0 <= y < h ->
       x < border \/ border + w <= x \/ y < border ->
       Raster.getpixel out x y = nth 0 palette white).
Proof.
  destruct raster_get_palette_pixels as (out & Hout & _ & _ & Hpix).
  exists out; split; [exact Hout|]; split.
  - intros x y Hx Hy; rewrite Hpix by lia.
    unfold composed_pixel; fold w; fold h.
    destruct (Z.leb_spec h (y + border)); [lia|].
    destruct (Z.leb_spec border (x + border)); [|lia].
    destruct (Z.ltb_spec (x + border) (border + w)); [|lia].
    destruct (Z.leb_spec border (y + border)); [|lia]; cbn [andb].
    f_equal; lia.
  - intros x y Hx Hy Hout'; rewrite Hpix by lia.
    unfold composed_pixel; fold w; fold h.
    destruct (Z.leb_spec h y); [lia|].
    destruct (Z.leb_spec border x); destruct (Z.ltb_spec x (border + w));
      destruct (Z.leb_spec border y); cbn [andb]; try reflexivity; lia.
Qed.

(** With the default border fraction: the rows from [h] on, where the last
    [border] rows of the input would be, hold the strip.  Rectangle [i]
    before the last spans [i * div_palette] to [(i + 1) * div_palette], the
    last rectangle starts at [(len - 1) * div_palette] and is as wide as its
    width allows, and the columns beyond it are white. *)
Theorem composed_strip_part :
  exists out,
    get_palette R im default_border wand = Ok out /\
    forall x y, 0 <= x < w + 2 * border -> h <= y < h + border ->
      (forall i, (i < len - 1)%nat ->
         Z.of_nat i * div_palette <= x < Z.of_nat (S i) * div_palette ->
         Raster.getpixel out x y = nth i palette white) /\
      ((Z.of_nat len - 1) * div_palette <= x
         < (Z.of_nat len - 1) * div_palette + last_width ->
       Raster.getpixel out x y = nth (len - 1) palette white) /\
      ((Z.of_nat len - 1) * div_palette + last_width <= x ->
       Raster.getpixel out x y = white).
Proof.
  destruct (clean_colors_truthy _ _ _ cleaned) as [_ Hlen5].
  fold len in Hlen5.
  assert (Hlast : segment_width w div_palette len (len - 1) = last_width).
  { unfold segment_width.
    destruct (Nat.eqb_spec (len - 1) 0); [lia|].
    rewrite Nat.eqb_refl; reflexivity. }
  destruct raster_get_palette_pixels as (out & Hout & _ & _ & Hpix).
  exists out; split; [exact Hout|].
  intros x y Hx Hy; rewrite Hpix by lia.
  unfold composed_pixel; fold w; fold h.
  destruct (Z.leb_spec h y); [|lia].
  unfold strip_color; cbv zeta; fold len; rewrite Hlast.
  split; [|split].
  - intros i Hi Hseg.
    assert (Hpos : 0 < div_palette) by lia.
    destruct (Z.ltb_spec x ((Z.of_nat len - 1) * div_palette)); [|nia].
    assert (Hq : x / div_palette = Z.of_nat i).
    { symmetry.
      apply (Z.div_unique x div_palette (Z.of_nat i)
               (x - Z.of_nat i * div_palette)); [left; lia | lia]. }
    rewrite Hq, Nat2Z.id; reflexivity.
  - intros Hseg.
    destruct (Z.ltb_spec x ((Z.of_nat len - 1) * div_palette)); [lia|].
    destruct (Z.ltb_spec x ((Z.of_nat len - 1) * div_palette + last_width));
      [reflexivity | lia].
  - intros Hgap.
    assert (Hnn : 0 <= last_width) by exact last_nonneg.
    destruct (Z.ltb_spec x ((Z.of_nat len - 1) * div_palette)); [lia|].
    destruct (Z.ltb_spec x ((Z.of_nat len - 1) * div_palette + last_width));
      [lia | reflexivity].
Qed.

End Composed.

End RasterPixels.

Lemma composed_image_part_witness :
  exists out,
    get_palette Sample.backend Sample.frame default_border true = Ok out /\
    forall x y, 0 <= x < 120 -> 0 <= y < 60 - 1 ->
      Raster.getpixel out (x + 1) (y + 1) = Raster.getpixel Sample.frame x y.
Proof.
  destruct (composed_image_part Sample.unique_colors Sample.get_color
              Sample.get_palette Sample.frame true
              ten_colors ten_colors 1) as (out & Hout & Himage & _).
  - simpl; lia.
  - simpl; lia.
  - vm_compute; reflexivity.
  - reflexivity.
  - reflexivity.
  - lia.
  - vm_compute; discriminate.
  - exists out; split; [exact Hout | exact Himage].
Defined.

Lemma composed_strip_part_witness :
  exists out,
    get_palette Sample.backend Sample.frame default_border true = Ok out /\
    Raster.getpixel out 50 60 = nth 4 ten_colors white.
Proof.
  destruct (composed_strip_part Sample.unique_colors Sample.get_color
              Sample.get_palette Sample.frame true
              ten_colors ten_colors 1) as (out & Hout & Hstrip).
  - simpl; lia.
  - simpl; lia.
  - vm_compute; reflexivity.
  - reflexivity.
  - reflexivity.
  - lia.
  - vm_compute; discriminate.
  - exists out; split; [exact Hout|].
    refine (proj1 (Hstrip 50 60 _ _) 4%nat _ _).
    + simpl; lia.
    + simpl; lia.
    + simpl; lia.
    + vm_compute; split; [discriminate | reflexivity].
Defined.

(** ** The legacy layout *)

Lemma py_int_scale (a c : Z) (d : positive) :
  py_int (inject_Z a * (c # d)) = Z.quot (a * c) (Z.pos d).
Proof. reflexivity. Qed.

Lemma quot_scale_bounds (a c d : Z) :
  0 <= a -> 0 <= c <= d -> 0 < d -> 0 <= Z.quot (a * c) d <= a.
Proof.
  intros Ha Hc Hd.
  assert (Hac : 0 <= a * c) by (apply Z.mul_nonneg_nonneg; lia).
  destruct (quot_nonneg_bounds (a * c) d Hac Hd) as [Hq Hb].
  split; [exact Hq|].
  assert (a * c <= a * d) by (apply Z.mul_le_mono_nonneg_l; lia).
  destruct (Z.le_gt_cases (Z.quot (a * c) d) a) as [Hle|Hgt]; [exact Hle|].
  assert (d * (a + 1) <= d * Z.quot (a * c) d)
    by (apply Z.mul_le_mono_nonneg_l; lia).
  lia.
Qed.

Lemma legacy_step_segment (B : Backend) (palette : list Color)
  (div_palette height_palette : Z) (bg : Image B) (color : nat) :
  legacy_step B palette div_palette
              (py_int (inject_Z div_palette * 0.95)) height_palette
              (bg, Z.of_nat color * div_palette) color =
  (bg' <- paste_legacy_segment B palette div_palette
            (py_int (inject_Z div_palette * 0.95)) height_palette bg color ;;
   Ok (bg', Z.of_nat (S color) * div_palette)).
Proof.
  unfold legacy_step, paste_legacy_segment.
  destruct (Nat.eqb_spec color 0) as [->|Hne].
  - change (Z.of_nat 0 * div_palette) with 0.
    destruct (Image_new B _ (nth 0 palette white)) as [img|e];
      cbn [bind]; [|reflexivity].
    destruct (Image_paste B bg img (0, 0)); cbn [bind]; [|reflexivity].
    f_equal; f_equal; lia.
  - destruct (Image_new B _ (nth color palette white)) as [img|e];
      cbn [bind]; [|reflexivity].
    destruct (Image_paste B bg img _); cbn [bind]; [|reflexivity].
    f_equal; f_equal; lia.
Qed.

Lemma legacy_loop_from (B : Backend) (palette : list Color)
  (div_palette height_palette : Z) (n : nat) :
  forall (a : nat) (bg : Image B),
    for_each (legacy_step B palette div_palette
                (py_int (inject_Z div_palette * 0.95)) height_palette)
             (range a n) (bg, Z.of_nat a * div_palette) =
    (bg' <- for_each (paste_legacy_segment B palette div_palette
                        (py_int (inject_Z div_palette * 0.95))
                        height_palette)
                     (range a n) bg ;;
     Ok (bg', Z.of_nat (a + n) * div_palette)).
Proof.
  induction n as [|n IH]; intros a bg; unfold range in *; cbn [seq for_each].
  - cbn [bind]; rewrite Nat.add_0_r; reflexivity.
  - rewrite legacy_step_segment.
    destruct (paste_legacy_segment B palette div_palette _ height_palette
                                   bg a) as [bg1|e];
      cbn [bind]; [|reflexivity].
    rewrite IH; replace (S a + n)%nat with (a + S n)%nat by lia.
    reflexivity.
Qed.

(** The branch for the first colour changes nothing: every rectangle of the
    legacy strip is [int(div_palette * 0.95)] wide, rectangle [i] is pasted
    at [x = i * div_palette], and so the rectangles never overlap. *)
Theorem legacy_segments_uniform (B : Backend) (palette : list Color)
  (div_palette height_palette : Z) (bg : Image B) :
  0 <= div_palette ->
  let off_palette := py_int (inject_Z div_palette * 0.95) in
  for_each (legacy_step B palette div_palette off_palette height_palette)
           (range 0 (length palette)) (bg, 0) =
  (bg' <- for_each (paste_legacy_segment B palette div_palette off_palette
                      height_palette)
                   (range 0 (length palette)) bg ;;
   Ok (bg', Z.of_nat (length palette) * div_palette)) /\
  off_palette = Z.quot (div_palette * 95) 100 /\
  0 <= off_palette <= div_palette.
Proof.
  intros Hd off_palette; split; [|split].
  - exact (legacy_loop_from B palette div_palette height_palette
             (length palette) 0%nat bg).
  - reflexivity.
  - unfold off_palette; rewrite py_int_scale.
    apply quot_scale_bounds; lia.
Qed.

Lemma legacy_segments_uniform_witness :
  0 <= 99 /\
  py_int (inject_Z 99 * 0.95) = Z.quot (99 * 95) 100 /\
  0 <= py_int (inject_Z 99 * 0.95) <= 99.
Proof.
  split; [lia|].
  exact (proj2 (legacy_segments_uniform Sample.backend ten_colors 99 181
                  Sample.plain ltac:(lia))).
Defined.

(** ** The alternative extractor end to end *)

(** When Pillow and ColorThief succeed on each of the ten slices and
    ColorThief finds at least one candidate in each, the alternative
    extraction returns exactly ten colours. *)
Theorem get_colors_alt_ten (B : Backend) (im : Image B) :
  (forall i, (i < 10)%nat ->
     exists cropped,
       Image_crop B im (slice_box (fst (size B im)) (snd (size B im)) i)
         = Ok cropped /\
       (exists c, thief_get_color B cropped = Ok c) /\
       (exists cs, thief_get_palette B cropped 100 = Ok cs /\ cs <> [])) ->
  exists colors, get_colors_alt B im = Ok colors /\ length colors = 10%nat.
Proof.
  intros Hlib.
  destruct (get_colors_alt_returns B im Hlib) as [colors H].
  exists colors; split; [exact H|].
  unfold get_colors_alt in H; apply slice_loop_length in H; exact H.
Qed.

Lemma get_colors_alt_ten_witness :
  exists colors,
    get_colors_alt Sample.backend Sample.ribbon = Ok colors /\
    length colors = 10%nat.
Proof.
  apply (get_colors_alt_ten Sample.backend Sample.ribbon).
  intros i Hi.
  do 10 (destruct i as [|i];
         [eexists; split; [vm_compute; reflexivity|];
          split; eexists; [vm_compute; reflexivity|];
          split; [vm_compute; reflexivity | discriminate]|]).
  lia.
Defined.

(** With the alternative extractor and the default border, an image that is
    not wider than 21:10 always gets its palette once the extraction
    returns: ten colours come back, at least five survive the cleaning, and
    no size of the layout is negative. *)
Theorem alt_default_layout (B : Backend) (im : Image B) (w h : Z)
  (colors : list Color) :
  pillow_sizes B -> size B im = (w, h) -> 0 <= w -> 1 <= h ->
  10 * w <= 21 * h ->
  get_colors_alt B im = Ok colors ->
  exists out,
    get_palette B im default_border false = Ok out /\
    size B out = (w + 2 * Z.quot (w * 15) 1000, h + Z.quot (w * 15) 1000).
Proof.
  intros HB Hsize Hw Hh Hratio Hcol.
  assert (Hten : length colors = 10%nat)
    by (unfold get_colors_alt in Hcol; apply slice_loop_length in Hcol;
        exact Hcol).
  assert (Hclean : clean_colors colors default_tolerancy
                   = Some (clean_loop colors default_tolerancy
                             (range 5 (length colors - 5))))
    by (apply clean_colors_long; lia).
  destruct (clean_colors_some_prefix _ _ _ Hclean) as (_ & n & Hn & Hpre).
  apply (default_layout_width B im false w h colors _ HB Hsize Hw Hh Hcol
           Hclean).
  - rewrite Hpre, length_firstn; lia.
  - pose proof (ratio_wide w h Hh) as Hwide.
    destruct (Z.ltb_spec (21 * h) (10 * w)); [lia|].
    destruct (Qle_bool (inject_Z w / inject_Z h) 2.1);
      [reflexivity | discriminate].
Qed.

Lemma alt_default_layout_witness :
  exists out,
    get_palette Sample.backend banner default_border false = Ok out /\
    size Sample.backend out = (30 + 2 * Z.quot (30 * 15) 1000,
                               20 + Z.quot (30 * 15) 1000).
Proof.
  apply (alt_default_layout Sample.backend banner 30 20 ten_colors).
  - apply raster_pillow_sizes.
  - reflexivity.
  - lia.
  - lia.
  - lia.
  - vm_compute; reflexivity.
Defined.
